(** * A shallow embedding of [audio_model.py] (Audio-Arousal Model)

    Tensors are modelled as a shape and an index function over [R]; a
    PyTorch runtime error (shape mismatch, invalid [view]) is [None].
    Dropout draws its keep-masks from a random generator that the forward
    passes consume in order: the monad [M] threads a counter of draws
    through the computation and fails when the code raises. *)

From Stdlib Require Import String.
From Stdlib Require Import Reals Lra Lia List Bool Arith PeanoNat ZArith.
Import ListNotations.

Local Open Scope nat_scope.

(** ** Tensors *)

Record Tensor (A : Type) := mkT { shape : list nat; get : list nat -> A }.
Arguments mkT {A} _ _.
Arguments shape {A} _.
Arguments get {A} _ _.

Definition numel (s : list nat) : nat := fold_right Nat.mul 1 s.

(** Row-major linear offset of an index, and its inverse. *)
Fixpoint flatten (s idx : list nat) : nat :=
  match s, idx with
  | _ :: s', i :: idx' => i * numel s' + flatten s' idx'
  | _, _ => 0
  end.

Fixpoint unflatten (s : list nat) (n : nat) : list nat :=
  match s with
  | [] => []
  | _ :: s' => n / numel s' :: unflatten s' (n mod numel s')
  end.

(** PyTorch's dimension wrapping: [-1] is the last dimension. *)
Definition wrap_dim (rank : nat) (d : Z) : option nat :=
  if (0 <=? d)%Z then (if (d <? Z.of_nat rank)%Z then Some (Z.to_nat d) else None)
  else if (- Z.of_nat rank <=? d)%Z then Some (Z.to_nat (Z.of_nat rank + d)) else None.

Definition swap_pos (i j k : nat) : nat :=
  if k =? i then j else if k =? j then i else k.

Definition permute (i j : nat) (l : list nat) : list nat :=
  map (fun k => nth (swap_pos i j k) l 0) (seq 0 (length l)).

Definition insert_at (p : nat) (v : nat) (l : list nat) : list nat :=
  firstn p l ++ v :: skipn p l.

Definition remove_at (p : nat) (l : list nat) : list nat :=
  firstn p l ++ skipn (S p) l.

Definition replace_at (p : nat) (v : nat) (l : list nat) : list nat :=
  firstn p l ++ v :: skipn (S p) l.

(** ** The error and random-generator monad *)

(** [rng k] is the keep-mask of the [k]-th dropout draw. *)
Definition Rng := nat -> list nat -> bool.
Definition M (A : Type) : Type := Rng -> nat -> option (A * nat).

Definition ret {A} (a : A) : M A := fun _ n => Some (a, n).
Definition bind {A B} (c : M A) (k : A -> M B) : M B :=
  fun rng n => match c rng n with
               | Some (a, n') => k a rng n'
               | None => None
               end.
Definition lift {A} (o : option A) : M A :=
  fun _ n => match o with Some a => Some (a, n) | None => None end.
Definition draw : M (list nat -> bool) := fun rng n => Some (rng n, S n).

Notation "'let*' x ':=' c 'in' k" := (bind c (fun x => k))
  (at level 200, x name, c at level 100, k at level 200).
Notation "'let*' ' p ':=' c 'in' k" := (bind c (fun x => match x with p => k end))
  (at level 200, p pattern, c at level 100, k at level 200).

(** ** Tensor operations *)

Definition shape_eqb (a b : list nat) : bool :=
  if list_eq_dec Nat.eq_dec a b then true else false.

Definition rsum (n : nat) (f : nat -> R) : R :=
  fold_right Rplus 0%R (map f (seq 0 n)).

Definition tmap {A B} (f : A -> B) (x : Tensor A) : Tensor B :=
  mkT (shape x) (fun i => f (get x i)).

(** [x.size(d)] *)
Definition size {A} (x : Tensor A) (d : nat) : option nat := nth_error (shape x) d.

(** [x.reshape(spec)] / [x.view(spec)] with at most one [-1] ([None]),
    following PyTorch's [infer_size]. *)
Definition reshape {A} (spec : list (option nat)) (x : Tensor A) : option (Tensor A) :=
  let n := numel (shape x) in
  let known := numel (map (fun o => match o with Some d => d | None => 1 end) spec) in
  let holes := length (filter (fun o => match o with None => true | _ => false end) spec) in
  let fill k := map (fun o => match o with Some d => d | None => k end) spec in
  let build s := Some (mkT s (fun idx => get x (unflatten (shape x) (flatten s idx)))) in
  match holes with
  | 0 => if n =? known then build (fill 0) else None
  | 1 => if (n =? known) || ((0 <? known) && (n mod known =? 0)) then
           (if known =? 0 then None else build (fill (n / known)))
         else None
  | _ => None
  end.

(** [x.view(spec)]: every [view] of the file is applied to a contiguous
    tensor, where it coincides with [reshape]. *)
Definition view {A} := @reshape A.

Definition transpose {A} (x : Tensor A) (d1 d2 : Z) : option (Tensor A) :=
  let r := length (shape x) in
  match wrap_dim r d1, wrap_dim r d2 with
  | Some i, Some j => Some (mkT (permute i j (shape x)) (fun idx => get x (permute i j idx)))
  | _, _ => None
  end.

Definition unsqueeze {A} (x : Tensor A) (d : Z) : option (Tensor A) :=
  match wrap_dim (S (length (shape x))) d with
  | Some p => Some (mkT (insert_at p 1 (shape x)) (fun idx => get x (remove_at p idx)))
  | None => None
  end.

(** [torch.matmul] on two tensors of rank at least 2 with equal batch
    dimensions (the only form used by the file). *)
Definition matmul (a b : Tensor R) : option (Tensor R) :=
  let ra := length (shape a) in
  let rb := length (shape b) in
  if (2 <=? ra) && (ra =? rb) then
    let pre := firstn (ra - 2) (shape a) in
    let n := nth (ra - 2) (shape a) 0 in
    let m := nth (ra - 1) (shape a) 0 in
    let m' := nth (rb - 2) (shape b) 0 in
    let p := nth (rb - 1) (shape b) 0 in
    if shape_eqb pre (firstn (rb - 2) (shape b)) && (m =? m') then
      Some (mkT (pre ++ [n; p])
              (fun idx => let bi := firstn (ra - 2) idx in
                          let i := nth (ra - 2) idx 0 in
                          let k := nth (ra - 1) idx 0 in
                          rsum m (fun j => (get a (bi ++ [i; j]) * get b (bi ++ [j; k]))%R)))
    else None
  else None.

(** Elementwise [x + y] on tensors of one shape. *)
Definition add (x y : Tensor R) : option (Tensor R) :=
  if shape_eqb (shape x) (shape y)
  then Some (mkT (shape x) (fun i => (get x i + get y i)%R)) else None.

(** Broadcasting a mask index onto a tensor index (right-aligned). *)
Definition bcast_index (ms xs idx : list nat) : list nat :=
  let off := length xs - length ms in
  map (fun k => if nth k ms 0 =? 1 then 0 else nth (off + k) idx 0) (seq 0 (length ms)).

Definition broadcastable (ms xs : list nat) : bool :=
  let off := length xs - length ms in
  (length ms <=? length xs) &&
  forallb (fun k => (nth k ms 0 =? 1) || (nth k ms 0 =? nth (off + k) xs 0))
          (seq 0 (length ms)).

Definition masked_fill (x : Tensor R) (m : Tensor bool) (v : R) : option (Tensor R) :=
  if broadcastable (shape m) (shape x) then
    Some (mkT (shape x) (fun idx => if get m (bcast_index (shape m) (shape x) idx) then v else get x idx))
  else None.

(** [F.softmax(x, dim=-1)] *)
Definition softmax_last (x : Tensor R) : option (Tensor R) :=
  match shape x with
  | [] => None
  | _ => let p := length (shape x) - 1 in
         let n := nth p (shape x) 0 in
         Some (mkT (shape x) (fun idx =>
                 (exp (get x idx) / rsum n (fun j => exp (get x (replace_at p j idx))))%R))
  end.

(** [F.relu] *)
Definition relu (x : Tensor R) : Tensor R := tmap (fun v => Rmax 0 v) x.

(** [x != 0] *)
Definition ne0 (x : Tensor R) : Tensor bool :=
  tmap (fun v => if Req_dec_T v 0 then false else true) x.

(** [torch.all(x, axis=d)] *)
Definition all_dim (x : Tensor bool) (d : nat) : option (Tensor bool) :=
  if d <? length (shape x) then
    let n := nth d (shape x) 0 in
    Some (mkT (remove_at d (shape x))
            (fun idx => forallb (fun j => get x (insert_at d j idx)) (seq 0 n)))
  else None.

(** [x[:, -1, :]] on a rank-3 tensor. *)
Definition select_last_dim1 (x : Tensor R) : option (Tensor R) :=
  match shape x with
  | [b; t; h] => if 0 <? t then Some (mkT [b; h] (fun idx =>
                   get x [nth 0 idx 0; t - 1; nth 1 idx 0])) else None
  | _ => None
  end.

(** [torch.zeros(s)] *)
Definition zeros (s : list nat) : Tensor R := mkT s (fun _ => 0%R).

Definition optb (b : option (nat -> R)) (o : nat) : R :=
  match b with Some f => f o | None => 0%R end.

(** ** Parameters

    A parameter store maps a [state_dict]-like path and an index to a
    weight; the constructors read their weights from it, so that any
    trained or initialised model is a store. *)

Inductive seg := Nm (s : String.string) | Ix (n : nat).
Definition Store := list seg -> list nat -> R.

Definition sub (p : list seg) (s : String.string) : list seg := p ++ [Nm s].

(** ** [torch.nn] layers *)

Record Linear := {
  in_features : nat; out_features : nat;
  l_weight : nat -> nat -> R; l_bias : option (nat -> R) }.

Definition nn_Linear (st : Store) (p : list seg) (i o : nat) (bias : bool) : Linear :=
  {| in_features := i; out_features := o;
     l_weight := fun r c => st (sub p "weight"%string) [r; c];
     l_bias := if bias then Some (fun r => st (sub p "bias"%string) [r]) else None |}.

Definition Linear_forward (m : Linear) (x : Tensor R) : option (Tensor R) :=
  let r := length (shape x) in
  match shape x with
  | [] => None
  | _ =>
    if nth (r - 1) (shape x) 0 =? in_features m then
      Some (mkT (firstn (r - 1) (shape x) ++ [out_features m]) (fun idx =>
              let pre := firstn (r - 1) idx in
              let o := nth (r - 1) idx 0 in
              (rsum (in_features m) (fun i => l_weight m o i * get x (pre ++ [i]))
               + optb (l_bias m) o)%R))
    else None
  end.

Record Conv2d := {
  in_channels : nat; out_channels : nat;
  kh : nat; kw : nat; ph : nat; pw : nat; sh : nat; sw : nat;
  c_weight : nat -> nat -> nat -> nat -> R; c_bias : option (nat -> R) }.

Definition nn_Conv2d (st : Store) (p : list seg) (cin cout : nat)
    (kernel padding stride : nat * nat) (bias : bool) : Conv2d :=
  {| in_channels := cin; out_channels := cout;
     kh := fst kernel; kw := snd kernel; ph := fst padding; pw := snd padding;
     sh := fst stride; sw := snd stride;
     c_weight := fun o c u v => st (sub p "weight"%string) [o; c; u; v];
     c_bias := if bias then Some (fun o => st (sub p "bias"%string) [o]) else None |}.

(** Output length of a convolution along one dimension. *)
Definition conv_out_len (len k pad s : nat) : option nat :=
  if (k <=? len + 2 * pad) && (0 <? s) then Some ((len + 2 * pad - k) / s + 1) else None.

(** The zero-padded input. *)
Definition padded (x : Tensor R) (H W p q : nat) (b c r s : nat) : R :=
  if (r <? p) || (H + p <=? r) || (s <? q) || (W + q <=? s) then 0%R
  else get x [b; c; r - p; s - q].

Definition Conv2d_forward (m : Conv2d) (x : Tensor R) : option (Tensor R) :=
  match shape x with
  | [N; C; H; W] =>
    if C =? in_channels m then
      match conv_out_len H (kh m) (ph m) (sh m), conv_out_len W (kw m) (pw m) (sw m) with
      | Some Ho, Some Wo =>
        Some (mkT [N; out_channels m; Ho; Wo] (fun idx =>
          let b := nth 0 idx 0 in let o := nth 1 idx 0 in
          let i := nth 2 idx 0 in let j := nth 3 idx 0 in
          (rsum C (fun c => rsum (kh m) (fun u => rsum (kw m) (fun v =>
             c_weight m o c u v * padded x H W (ph m) (pw m) b c (i * sh m + u) (j * sw m + v))))
           + optb (c_bias m) o)%R))
      | _, _ => None
      end
    else None
  | _ => None
  end.

Record Dropout := { drop_p : R; training : bool }.

(** [nn.Dropout(p)]: a freshly constructed module is in training mode. *)
Definition nn_Dropout (p : R) : Dropout := {| drop_p := p; training := true |}.

Definition dropout_apply (p : R) (keep : list nat -> bool) (x : Tensor R) : Tensor R :=
  mkT (shape x) (fun idx => if keep idx then (get x idx / (1 - p))%R else 0%R).

Definition Dropout_forward (d : Dropout) (x : Tensor R) : M (Tensor R) :=
  if training d then let* keep := draw in ret (dropout_apply (drop_p d) keep x)
  else ret x.

Record LayerNorm := {
  normalized_dim : nat; ln_eps : R; ln_weight : nat -> R; ln_bias : nat -> R }.

Definition nn_LayerNorm (st : Store) (p : list seg) (d : nat) : LayerNorm :=
  {| normalized_dim := d; ln_eps := (/ 100000)%R;
     ln_weight := fun k => st (sub p "weight"%string) [k];
     ln_bias := fun k => st (sub p "bias"%string) [k] |}.

Definition ln_mean (d : nat) (f : nat -> R) : R := (rsum d f / INR d)%R.
Definition ln_var (d : nat) (f : nat -> R) : R :=
  (rsum d (fun j => (f j - ln_mean d f) * (f j - ln_mean d f)) / INR d)%R.

Definition LayerNorm_forward (m : LayerNorm) (x : Tensor R) : option (Tensor R) :=
  let r := length (shape x) in
  match shape x with
  | [] => None
  | _ =>
    if nth (r - 1) (shape x) 0 =? normalized_dim m then
      let d := normalized_dim m in
      Some (mkT (shape x) (fun idx =>
        let k := nth (r - 1) idx 0 in
        let row := fun j => get x (replace_at (r - 1) j idx) in
        ((get x idx - ln_mean d row) / sqrt (ln_var d row + ln_eps m) * ln_weight m k
         + ln_bias m k)%R))
    else None
  end.

Definition sigmoid (v : R) : R := (1 / (1 + exp (- v)))%R.

(** [nn.GRU]; the weights of layer [l] are [weight_ih_l{l}] (rows: reset,
    update and new gates, in this order) and [weight_hh_l{l}]. *)
Record GRU := {
  g_input_size : nat; g_hidden_size : nat; g_num_layers : nat;
  g_bias : bool; g_batch_first : bool; g_dropout : R; g_training : bool;
  w_ih : nat -> nat -> nat -> R; w_hh : nat -> nat -> nat -> R;
  b_ih : option (nat -> nat -> R); b_hh : option (nat -> nat -> R) }.

Definition nn_GRU (st : Store) (p : list seg) (input_size hidden_size num_layers : nat)
    (bias batch_first : bool) (dropout : R) : GRU :=
  {| g_input_size := input_size; g_hidden_size := hidden_size;
     g_num_layers := num_layers; g_bias := bias; g_batch_first := batch_first;
     g_dropout := dropout; g_training := true;
     w_ih := fun l r c => st (p ++ [Nm "weight_ih_l"; Ix l]) [r; c];
     w_hh := fun l r c => st (p ++ [Nm "weight_hh_l"; Ix l]) [r; c];
     b_ih := if bias then Some (fun l r => st (p ++ [Nm "bias_ih_l"; Ix l]) [r]) else None;
     b_hh := if bias then Some (fun l r => st (p ++ [Nm "bias_hh_l"; Ix l]) [r]) else None |}.

Definition optb2 (b : option (nat -> nat -> R)) (l r : nat) : R :=
  match b with Some f => f l r | None => 0%R end.

(** One step of layer [l]: input [x] (of [in_dim] components), state [h]. *)
Definition gru_cell (g : GRU) (l in_dim : nat) (x h : nat -> R) : nat -> R :=
  let H := g_hidden_size g in
  let gi r := (rsum in_dim (fun i => w_ih g l r i * x i) + optb2 (b_ih g) l r)%R in
  let gh r := (rsum H (fun j => w_hh g l r j * h j) + optb2 (b_hh g) l r)%R in
  fun k =>
    let r := sigmoid (gi k + gh k) in
    let z := sigmoid (gi (H + k) + gh (H + k)) in
    let n := tanh (gi (2 * H + k) + r * gh (2 * H + k)) in
    ((1 - z) * n + z * h k)%R.

(** The state of layer [l] after [t] steps over the sequence [x]. *)
Fixpoint gru_state (g : GRU) (l in_dim : nat) (x : nat -> nat -> R) (h0 : nat -> R)
    (t : nat) : nat -> R :=
  match t with
  | 0 => h0
  | S t' => gru_cell g l in_dim (x t') (gru_state g l in_dim x h0 t')
  end.

(** The outputs [out_l[b][t][k]] of layers [l], [l+1], ... ([fuel] layers
    left); between two layers the output goes through dropout in training
    mode. *)
Fixpoint gru_stack (g : GRU) (l fuel in_dim B T : nat) (inp : Tensor R)
    (h0 : Tensor R) : M (list (Tensor R)) :=
  match fuel with
  | 0 => ret []
  | S f =>
    let out := mkT [B; T; g_hidden_size g] (fun idx =>
      let b := nth 0 idx 0 in
      gru_state g l in_dim (fun t i => get inp [b; t; i]) (fun k => get h0 [l; b; k])
                (S (nth 1 idx 0)) (nth 2 idx 0)) in
    let* nxt :=
      (if (0 <? f) && g_training g && (if Req_dec_T (g_dropout g) 0 then false else true)
       then Dropout_forward {| drop_p := g_dropout g; training := true |} out
       else ret out) in
    let* rest := gru_stack g (S l) f (g_hidden_size g) B T nxt h0 in
    ret (out :: rest)
  end.

Definition GRU_forward (g : GRU) (x h0 : Tensor R) : M (Tensor R * Tensor R) :=
  let* x' := (if g_batch_first g then ret x else lift (transpose x 0 1)) in
  match shape x' with
  | [B; T; Idim] =>
    if (Idim =? g_input_size g) && (0 <? g_num_layers g)
       && shape_eqb (shape h0) [g_num_layers g; B; g_hidden_size g] then
      let* outs := gru_stack g 0 (g_num_layers g) Idim B T x' h0 in
      let top := last outs (zeros []) in
      let h_n := mkT [g_num_layers g; B; g_hidden_size g] (fun idx =>
        match T with
        | 0 => get h0 idx
        | S T' => get (nth (nth 0 idx 0) outs (zeros [])) [nth 1 idx 0; T'; nth 2 idx 0]
        end) in
      let* out := (if g_batch_first g then ret top else lift (transpose top 0 1)) in
      ret (out, h_n)
    else lift None
  | _ => lift None
  end.

(** ** The modules of [audio_model.py] *)

(** [AudioExtractor] *)
Record AudioExtractor := { conv1 : Conv2d; conv2 : Conv2d; conv3 : Conv2d; conv4 : Conv2d }.

Definition AudioExtractor_init (st : Store) (p : list seg) : AudioExtractor :=
  {| conv1 := nn_Conv2d st (sub p "conv1") 2 8 (1, 4) (0, 1) (1, 2) false;
     conv2 := nn_Conv2d st (sub p "conv2") 8 8 (1, 7) (0, 3) (1, 1) false;
     conv3 := nn_Conv2d st (sub p "conv3") 8 24 (1, 4) (0, 1) (1, 2) false;
     conv4 := nn_Conv2d st (sub p "conv4") 24 24 (1, 7) (0, 3) (1, 1) false |}.

Definition AudioExtractor_forward (m : AudioExtractor) (x : Tensor R) : option (Tensor R) :=
  match size x 0 with
  | None => None
  | Some batch_size =>
    match Conv2d_forward (conv1 m) x with None => None | Some x =>
    let x := relu x in
    match Conv2d_forward (conv2 m) x with None => None | Some x =>
    let x := relu x in
    match Conv2d_forward (conv3 m) x with None => None | Some x =>
    let x := relu x in
    match Conv2d_forward (conv4 m) x with None => None | Some x =>
    match transpose x 2 1 with None => None | Some x =>
    reshape [Some batch_size; Some 512; None] x
    end end end end end
  end.

(** [padding_mask_audio] *)
Definition padding_mask_audio (audio : Tensor R) : option (Tensor bool) :=
  match all_dim (ne0 audio) 2 with
  | Some a => unsqueeze a (-2)
  | None => None
  end.

(** [FFN] *)
Record FFN := { ffn_hidden_dim : nat; ffn_inner_dim : nat;
                fc1 : Linear; fc2 : Linear; ffn_dropout : Dropout }.

Definition FFN_init (st : Store) (p : list seg) (hidden_dim inner_dim : nat) (dropout : R) : FFN :=
  {| ffn_hidden_dim := hidden_dim; ffn_inner_dim := inner_dim;
     fc1 := nn_Linear st (sub p "fc1") hidden_dim inner_dim true;
     fc2 := nn_Linear st (sub p "fc2") inner_dim hidden_dim true;
     ffn_dropout := nn_Dropout dropout |}.

Definition FFN_forward (f : FFN) (x : Tensor R) : M (Tensor R) :=
  let res := x in
  let* x := lift (Linear_forward (fc1 f) x) in
  let x := relu x in
  let* x := Dropout_forward (ffn_dropout f) x in
  let* x := lift (Linear_forward (fc2 f) x) in
  lift (add x res).

(** [Self_Attention]: the dropout is a module built inside the call. *)
Definition Self_Attention (Q K V : Tensor R) (mask : option (Tensor bool))
    : M (Tensor R * Tensor R) :=
  let* K_t := lift (transpose K (-2) (-1)) in
  let* KV := lift (matmul Q K_t) in
  let dim := last (shape Q) 0 in
  let drop := nn_Dropout (1 / 10)%R in
  let score := tmap (fun v => (v / sqrt (INR dim))%R) KV in
  let* score :=
    match mask with
    | None => ret score
    | Some mask =>
      let* mask := lift (unsqueeze mask 1) in
      lift (masked_fill score (tmap negb mask) (- 1000000000)%R)
    end in
  let* sm := lift (softmax_last score) in
  let* score := Dropout_forward drop sm in
  let* att_value := lift (matmul score V) in
  ret (att_value, score).

(** [MHA] *)
Record MHA := { mha_hidden_dim : nat; num_head : nat; head_dim : nat;
                Q_fc : Linear; K_fc : Linear; V_fc : Linear; Out_fc : Linear;
                mha_dropout : Dropout }.

Definition MHA_init (st : Store) (p : list seg) (hidden_dim num_head : nat) (dropout : R) : MHA :=
  {| mha_hidden_dim := hidden_dim; num_head := num_head; head_dim := hidden_dim / num_head;
     Q_fc := nn_Linear st (sub p "Q_fc") hidden_dim hidden_dim false;
     K_fc := nn_Linear st (sub p "K_fc") hidden_dim hidden_dim false;
     V_fc := nn_Linear st (sub p "V_fc") hidden_dim hidden_dim false;
     Out_fc := nn_Linear st (sub p "Out_fc") hidden_dim hidden_dim false;
     mha_dropout := nn_Dropout dropout |}.

(** [self.X_fc(X_input).view(batch_size, -1, num_head, head_dim).transpose(1, 2)] *)
Definition heads (m : MHA) (fc : Linear) (batch_size : nat) (x : Tensor R) : option (Tensor R) :=
  match Linear_forward fc x with None => None | Some y =>
  match view [Some batch_size; None; Some (num_head m); Some (head_dim m)] y with None => None | Some y =>
  transpose y 1 2 end end.

Definition MHA_forward (m : MHA) (Q_input K_input V_input : Tensor R)
    (mask : option (Tensor bool)) : M (Tensor R) :=
  let* batch_size := lift (size Q_input 0) in
  let* Q := lift (heads m (Q_fc m) batch_size Q_input) in
  let* K := lift (heads m (K_fc m) batch_size K_input) in
  let* V := lift (heads m (V_fc m) batch_size V_input) in
  let* '(att_value, score) := Self_Attention Q K V mask in
  let* att_value := lift (transpose att_value 1 2) in
  let* att_value := lift (view [Some batch_size; None; Some (mha_hidden_dim m)] att_value) in
  lift (Linear_forward (Out_fc m) att_value).

(** [AELayer1] *)
Record AELayer1 := { ae_MHA : MHA; layerNorm1 : LayerNorm; layerNorm2 : LayerNorm;
                     ffn : FFN; dropout1 : Dropout; dropout2 : Dropout }.

Definition AELayer1_init (st : Store) (p : list seg) (hidden_dim num_head inner_dim : nat) : AELayer1 :=
  {| ae_MHA := MHA_init st (sub p "MHA") hidden_dim num_head (1 / 10)%R;
     layerNorm1 := nn_LayerNorm st (sub p "layerNorm1") hidden_dim;
     layerNorm2 := nn_LayerNorm st (sub p "layerNorm2") hidden_dim;
     ffn := FFN_init st (sub p "ffn") hidden_dim inner_dim (1 / 10)%R;
     dropout1 := nn_Dropout (1 / 10)%R; dropout2 := nn_Dropout (1 / 10)%R |}.

Definition AELayer1_forward (a : AELayer1) (x : Tensor R) (mask : option (Tensor bool))
    : M (Tensor R) :=
  let* output := MHA_forward (ae_MHA a) x x x mask in
  let* d1 := Dropout_forward (dropout1 a) output in
  let* output := lift (add x d1) in
  let* output := lift (LayerNorm_forward (layerNorm1 a) output) in
  let* output_ := FFN_forward (ffn a) output in
  let* d2 := Dropout_forward (dropout2 a) output_ in
  let* output := lift (add output d2) in
  lift (LayerNorm_forward (layerNorm2 a) output).

(** [AEBlock1] *)
Record AEBlock1 := { AE1 : list AELayer1 }.

Definition AEBlock1_init (st : Store) (p : list seg) (hidden_dim num_head inner_dim n_layers : nat)
    : AEBlock1 :=
  {| AE1 := map (fun i => AELayer1_init st (sub p "AE1" ++ [Ix i]) hidden_dim num_head inner_dim)
                (seq 0 n_layers) |}.

(** [for layer in self.AE1: x = layer(x, masking)] *)
Fixpoint run_layers (ls : list AELayer1) (x : Tensor R) (masking : Tensor bool) : M (Tensor R) :=
  match ls with
  | [] => ret x
  | layer :: ls' => let* x := AELayer1_forward layer x (Some masking) in run_layers ls' x masking
  end.

Definition AEBlock1_forward (blk : AEBlock1) (x : Tensor R) : M (Tensor R) :=
  let* masking := lift (padding_mask_audio x) in
  run_layers (AE1 blk) x masking.

(** [AudioRegressor] *)
Record AudioRegressor := {
  ar_hidden_dim : nat; ar_num_head : nat; ar_inner_dim : nat; ar_n_layers : nat;
  Extractor : AudioExtractor; block : AEBlock1; gru : GRU; fc : Linear }.

Definition AudioRegressor_init (st : Store) (hidden_dim num_head inner_dim n_layers : nat)
    : AudioRegressor :=
  {| ar_hidden_dim := hidden_dim; ar_num_head := num_head; ar_inner_dim := inner_dim;
     ar_n_layers := n_layers;
     Extractor := AudioExtractor_init st [Nm "Extractor"];
     block := AEBlock1_init st [Nm "AEBlock1"] hidden_dim num_head inner_dim n_layers;
     gru := nn_GRU st [Nm "gru"] hidden_dim 64 2 false true (1 / 10)%R;
     fc := nn_Linear st [Nm "fc"] 64 1 true |}.

(** [AudioRegressor()] with its default arguments. *)
Definition AudioRegressor_default (st : Store) : AudioRegressor :=
  AudioRegressor_init st 768 4 1536 6.

Definition AudioRegressor_forward (m : AudioRegressor) (audio : Tensor R)
    : M (Tensor R * Tensor R) :=
  let* batch_size := lift (size audio 0) in
  let* audio_output := lift (AudioExtractor_forward (Extractor m) audio) in
  let* audio_output := AEBlock1_forward (block m) audio_output in
  let h0 := zeros [2; batch_size; 64] in
  let* '(out, h) := GRU_forward (gru m) audio_output h0 in
  let* h_t := lift (select_last_dim1 out) in
  let* output := lift (Linear_forward (fc m) h_t) in
  ret (output, audio_output).

(** ** [model.eval()]: every registered submodule leaves training mode. *)

Definition Dropout_eval (d : Dropout) : Dropout := {| drop_p := drop_p d; training := false |}.

Definition FFN_eval (f : FFN) : FFN :=
  {| ffn_hidden_dim := ffn_hidden_dim f; ffn_inner_dim := ffn_inner_dim f;
     fc1 := fc1 f; fc2 := fc2 f; ffn_dropout := Dropout_eval (ffn_dropout f) |}.

Definition MHA_eval (m : MHA) : MHA :=
  {| mha_hidden_dim := mha_hidden_dim m; num_head := num_head m; head_dim := head_dim m;
     Q_fc := Q_fc m; K_fc := K_fc m; V_fc := V_fc m; Out_fc := Out_fc m;
     mha_dropout := Dropout_eval (mha_dropout m) |}.

Definition AELayer1_eval (a : AELayer1) : AELayer1 :=
  {| ae_MHA := MHA_eval (ae_MHA a); layerNorm1 := layerNorm1 a; layerNorm2 := layerNorm2 a;
     ffn := FFN_eval (ffn a); dropout1 := Dropout_eval (dropout1 a);
     dropout2 := Dropout_eval (dropout2 a) |}.

Definition GRU_eval (g : GRU) : GRU :=
  {| g_input_size := g_input_size g; g_hidden_size := g_hidden_size g;
     g_num_layers := g_num_layers g; g_bias := g_bias g; g_batch_first := g_batch_first g;
     g_dropout := g_dropout g; g_training := false;
     w_ih := w_ih g; w_hh := w_hh g; b_ih := b_ih g; b_hh := b_hh g |}.

Definition AudioRegressor_eval (m : AudioRegressor) : AudioRegressor :=
  {| ar_hidden_dim := ar_hidden_dim m; ar_num_head := ar_num_head m;
     ar_inner_dim := ar_inner_dim m; ar_n_layers := ar_n_layers m;
     Extractor := Extractor m;
     block := {| AE1 := map AELayer1_eval (AE1 (block m)) |};
     gru := GRU_eval (gru m); fc := fc m |}.

(** The model as constructed, or after [model.eval()]. *)
Definition model_in_mode (ev : bool) (m : AudioRegressor) : AudioRegressor :=
  if ev then AudioRegressor_eval m else m.

(** ** The top-level statements of [audio_model.py]

    The module as Python executes it on import: the bodies of functions and
    methods are not run then, so a [def] is kept with its name and
    parameters only. *)
Module PyModule.
Local Open Scope string_scope.
Local Set Warnings "-register-all".

Inductive expr :=
| EName (id : string)
| EStr (s : string)
| EAttr (e : expr) (attr : string)
| ECall (f : expr) (args : list expr)
| EIfExp (body test orelse : expr).

Inductive stmt :=
| SImport (name : string) (asname : option string)
| SAssign (target : string) (value : expr)
| SFunctionDef (name : string) (params : list string)
| SClassDef (name : string) (bases : list expr) (body : list stmt)
| SExpr (e : expr)
| SIf (test : expr) (body : list stmt)
| SFor (target : string) (iter : expr) (body : list stmt)
| SWhile (test : expr) (body : list stmt).

Definition nn_Module : expr := EAttr (EName "nn") "Module".

(** [device = torch.device('cuda' if torch.cuda.is_available() else 'cpu')] *)
Definition device_value : expr :=
  ECall (EAttr (EName "torch") "device")
    [EIfExp (EStr "cuda")
            (ECall (EAttr (EAttr (EName "torch") "cuda") "is_available") [])
            (EStr "cpu")].

Definition audio_model : list stmt :=
  [ SImport "math" None;
    SImport "torch" None;
    SImport "torch.nn" (Some "nn");
    SImport "torch.nn.functional" (Some "F");
    SAssign "device" device_value;
    SClassDef "AudioExtractor" [nn_Module]
      [SFunctionDef "__init__" ["self"]; SFunctionDef "forward" ["self"; "x"]];
    SFunctionDef "padding_mask_audio" ["audio"];
    SClassDef "FFN" [nn_Module]
      [SFunctionDef "__init__" ["self"; "hidden_dim"; "inner_dim"; "dropout"];
       SFunctionDef "forward" ["self"; "x"]];
    SFunctionDef "Self_Attention" ["Q"; "K"; "V"; "mask"];
    SClassDef "MHA" [nn_Module]
      [SFunctionDef "__init__" ["self"; "hidden_dim"; "num_head"; "dropout"; "device"];
       SFunctionDef "forward" ["self"; "Q_input"; "K_input"; "V_input"; "mask"]];
    SClassDef "AELayer1" [nn_Module]
      [SFunctionDef "__init__" ["self"; "hidden_dim"; "num_head"; "inner_dim"];
       SFunctionDef "forward" ["self"; "x"; "mask"]];
    SClassDef "AEBlock1" [nn_Module]
      [SFunctionDef "__init__" ["self"; "hidden_dim"; "num_head"; "inner_dim"; "n_layers"];
       SFunctionDef "forward" ["self"; "x"]];
    SClassDef "AudioRegressor" [nn_Module]
      [SFunctionDef "__init__" ["self"; "hidden_dim"; "num_head"; "inner_dim"; "n_layers"];
       SFunctionDef "forward" ["self"; "audio"]] ].

(** The source files of the repository. *)
Definition source_files : list string := ["src/Audio-Arousal Model/audio_model.py"].

Definition class_names (prog : list stmt) : list string :=
  flat_map (fun s => match s with SClassDef c _ _ => [c] | _ => [] end) prog.

Definition function_names (prog : list stmt) : list string :=
  flat_map (fun s => match s with SFunctionDef f _ => [f] | _ => [] end) prog.

Definition class_methods (prog : list stmt) : list (string * list string) :=
  flat_map (fun s => match s with
                     | SClassDef c _ body => [(c, function_names body)]
                     | _ => [] end) prog.

Definition class_bases (prog : list stmt) : list (list expr) :=
  flat_map (fun s => match s with SClassDef _ b _ => [b] | _ => [] end) prog.

Fixpoint has_call (e : expr) : bool :=
  match e with
  | EName _ | EStr _ => false
  | EAttr e _ => has_call e
  | ECall _ _ => true
  | EIfExp a b c => has_call a || has_call b || has_call c
  end.

(** Whether executing the statement at import time evaluates a call, runs
    a loop or a condition, or an expression statement. *)
Fixpoint runs_code (s : stmt) : bool :=
  match s with
  | SImport _ _ | SFunctionDef _ _ => false
  | SAssign _ v => has_call v
  | SClassDef _ bases body => existsb has_call bases || existsb runs_code body
  | SExpr _ | SIf _ _ | SFor _ _ _ | SWhile _ _ => true
  end.

Definition is_control (s : stmt) : bool :=
  match s with SIf _ _ | SFor _ _ _ | SWhile _ _ | SExpr _ => true | _ => false end.

End PyModule.

(** Concrete inputs. *)
Definition store0 : Store := fun _ _ => 0%R.
Definition keep_all : Rng := fun _ _ => true.
Definition drop_all : Rng := fun _ _ => false.

(** A store for the default model: in the first five encoder layers
    [layerNorm2] has weight 0 and bias 1; in the sixth, [V_fc] averages the
    input and only the first row of [Out_fc] is nonzero (it averages the
    heads); both [LayerNorm]s of the sixth layer and [layerNorm1] of every
    layer have weight 1 and bias 0; every other weight is 0. *)
Definition store_att (p : list seg) (idx : list nat) : R :=
  match p with
  | [Nm blk; Nm ae; Ix i; Nm ln; Nm w] =>
    if String.eqb blk "AEBlock1"%string && String.eqb ae "AE1"%string then
      if String.eqb ln "layerNorm2"%string then
        if String.eqb w "weight"%string then if i <? 5 then 0%R else 1%R
        else if String.eqb w "bias"%string then if i <? 5 then 1%R else 0%R else 0%R
      else if String.eqb ln "layerNorm1"%string && String.eqb w "weight"%string then 1%R
      else 0%R
    else 0%R
  | [Nm blk; Nm ae; Ix i; Nm mha; Nm lin; Nm w] =>
    if String.eqb blk "AEBlock1"%string && String.eqb ae "AE1"%string
       && String.eqb mha "MHA"%string && String.eqb w "weight"%string && (i =? 5) then
      if String.eqb lin "V_fc"%string then (/ 768)%R
      else if String.eqb lin "Out_fc"%string then if nth 0 idx 0 =? 0 then (/ 768)%R else 0%R
      else 0%R
    else 0%R
  | _ => 0%R
  end.

(** The [i]-th encoder layer of [AudioRegressor_default store_att] after
    [model.eval()]. *)
Definition att_layer (i : nat) : AELayer1 :=
  AELayer1_eval (AELayer1_init store_att (sub [Nm "AEBlock1"%string] "AE1" ++ [Ix i]) 768 4 1536).

(** ** Auxiliary definitions used by the proofs *)

(** [yields o s f]: the operation succeeds with a tensor of shape [s]
    whose entries are those of [f]. *)
Definition yields {A} (o : option (Tensor A)) (s : list nat) (f : list nat -> A) : Prop :=
  exists y, o = Some y /\ shape y = s /\ forall i, get y i = f i.

(** [myields c rng n n' s f]: the same for a computation of [M]. *)
Definition myields (c : M (Tensor R)) (rng : Rng) (n n' : nat) (s : list nat)
    (f : list nat -> R) : Prop :=
  exists y, c rng n = Some (y, n') /\ shape y = s /\ forall i, get y i = f i.

(** The scaled score [Q K^T / sqrt d] and the masked logit. *)
Definition sa_raw (Q K : Tensor R) (d b h i j : nat) : R :=
  (rsum d (fun u => get Q [b; h; i; u] * get K [b; h; j; u]) / sqrt (INR d))%R.

Definition sa_logit (Q K : Tensor R) (d : nat) (mask : option (Tensor bool)) (b h i j : nat) : R :=
  match mask with
  | Some mm => if get mm [b; 0; j] then sa_raw Q K d b h i j else (- 1000000000)%R
  | None => sa_raw Q K d b h i j
  end.

(** The hypotheses under which an encoder layer is well-shaped. *)
Definition layer_ok (a : AELayer1) (hid H : nat) : Prop :=
  (exists st q dr, forall x mask,
      MHA_forward (ae_MHA a) x x x mask = MHA_forward (MHA_init st q hid H dr) x x x mask) /\
  normalized_dim (layerNorm1 a) = hid /\ normalized_dim (layerNorm2 a) = hid /\
  in_features (fc1 (ffn a)) = hid /\ in_features (fc2 (ffn a)) = out_features (fc1 (ffn a)) /\
  out_features (fc2 (ffn a)) = hid.

(** Layer 0 of a two-layer GRU run from [h0], as a tensor. *)
Definition gru_layer0 (g : GRU) (x h0 : Tensor R) (B T : nat) : Tensor R :=
  mkT [B; T; g_hidden_size g] (fun idx =>
    gru_state g 0 (g_input_size g) (fun t i => get x [nth 0 idx 0; t; i])
              (fun k => get h0 [0; nth 0 idx 0; k]) (S (nth 1 idx 0)) (nth 2 idx 0)).

(** The attention module of the [i]-th encoder layer built from [store_att]. *)
Definition att_mha (i : nat) : MHA :=
  MHA_init store_att (sub (sub [Nm "AEBlock1"%string] "AE1" ++ [Ix i]) "MHA") 768 4 (1 / 10)%R.

(** The frequency width left by the four convolutions of [AudioExtractor]
    on an input of [F] frequency bins: [conv_out_len] of each layer in turn. *)
Definition ext_width (F : nat) : nat :=
  let w1 := (F + 2 * 1 - 4) / 2 + 1 in
  let w2 := (w1 + 2 * 3 - 7) / 1 + 1 in
  let w3 := (w2 + 2 * 1 - 4) / 2 + 1 in
  (w3 + 2 * 3 - 7) / 1 + 1.

(** Concrete parameters and inputs for the examples of the further properties. *)
Definition st_one : Store := fun _ _ => 1%R.

Definition frame0_input : Tensor R :=
  mkT [1; 2; 512; 128] (fun i => if nth 2 i 0 =? 0 then 0%R else 1%R).

Definition mask_first_key : Tensor bool := mkT [1; 1; 4] (fun i => nth 2 i 0 =? 0).

Definition mask_none_kept : Tensor bool := mkT [1; 1; 3] (fun _ => false).

(** An attention input with two queries and three keys of width 2, the
    middle key masked, and a dropout draw that drops one weight. *)
Definition sa_Q : Tensor R := mkT [1; 1; 2; 2] (fun i => INR (1 + nth 2 i 0 + nth 3 i 0)).
Definition sa_K : Tensor R := mkT [1; 1; 3; 2] (fun i => INR (nth 2 i 0 * (1 + nth 3 i 0))).
Definition sa_V : Tensor R := mkT [1; 1; 3; 2] (fun i => INR (1 + nth 2 i 0 + 2 * nth 3 i 0)).
Definition sa_mask : Tensor bool := mkT [1; 1; 3] (fun i => negb (nth 2 i 0 =? 1)).
Definition sa_rng : Rng := fun _ idx => negb ((nth 2 idx 0 =? 1) && (nth 3 idx 0 =? 2)).

(** Two sequences of three frames with two components: frame 1 has one zero
    component, frame 2 of the second sequence is all zero, the others have
    no zero. *)
Definition c8_input : Tensor R :=
  mkT [2; 3; 2] (fun i =>
    if ((nth 1 i 0 =? 1) && (nth 2 i 0 =? 0)) || ((nth 0 i 0 =? 1) && (nth 1 i 0 =? 2))
    then 0%R else INR (1 + nth 2 i 0)).

(** * Proofs *)

(** ** Finite sums *)

Lemma rsum_ext (n : nat) (f g : nat -> R) :
  (forall j, j < n -> f j = g j) -> rsum n f = rsum n g.
Proof.
  intros H. unfold rsum. f_equal. apply map_ext_in.
  intros j Hj. apply in_seq in Hj. apply H. lia.
Qed.

Lemma rsum_S (n : nat) (f : nat -> R) :
  rsum (S n) f = (f 0%nat + rsum n (fun j => f (S j)))%R.
Proof.
  unfold rsum. cbn. f_equal. rewrite <- seq_shift, map_map. reflexivity.
Qed.

Lemma rsum_const (n : nat) (c : R) : rsum n (fun _ => c) = (INR n * c)%R.
Proof.
  induction n as [|n IH].
  - unfold rsum. cbn. lra.
  - rewrite rsum_S, IH, S_INR. lra.
Qed.

Lemma rsum_zero (n : nat) (f : nat -> R) :
  (forall j, j < n -> f j = 0%R) -> rsum n f = 0%R.
Proof.
  intros H. rewrite (rsum_ext n f (fun _ => 0%R)) by exact H.
  rewrite rsum_const. lra.
Qed.

Lemma rsum_first (n : nat) (a b : R) (f : nat -> R) :
  (forall j, j < S n -> f j = if j =? 0 then a else b) ->
  rsum (S n) f = (a + INR n * b)%R.
Proof.
  intros H. rewrite rsum_S. rewrite (H 0) by lia. cbn.
  rewrite (rsum_ext n (fun j => f (S j)) (fun _ => b)).
  - rewrite rsum_const. reflexivity.
  - intros j Hj. rewrite H by lia. reflexivity.
Qed.

Lemma rsum_nonneg (n : nat) (f : nat -> R) :
  (forall j, j < n -> (0 <= f j)%R) -> (0 <= rsum n f)%R.
Proof.
  revert f. induction n as [|n IH]; intros f H.
  - unfold rsum. cbn. lra.
  - rewrite rsum_S. pose proof (H 0 ltac:(lia)).
    assert (0 <= rsum n (fun j => f (S j)))%R by (apply IH; intros; apply H; lia). lra.
Qed.

(** ** Observed results of tensor operations *)

Lemma bind_some {A B} (c : M A) (k : A -> M B) rng n a n' :
  c rng n = Some (a, n') -> bind c k rng n = k a rng n'.
Proof. intros H. unfold bind. rewrite H. reflexivity. Qed.

Lemma lift_some {A} (o : option A) a rng n : o = Some a -> lift o rng n = Some (a, n).
Proof. intros H. unfold lift. rewrite H. reflexivity. Qed.

Lemma numel_app (s t : list nat) : numel (s ++ t) = numel s * numel t.
Proof.
  unfold numel. induction s as [|d s IH]; cbn [app fold_right].
  - symmetry. apply Nat.mul_1_l.
  - rewrite IH. apply Nat.mul_assoc.
Qed.

Lemma reshape3_ok {A} (x : Tensor A) (a b c : nat) :
  numel (shape x) = a * b * c -> 0 < a * b ->
  yields (reshape [Some a; Some b; None] x) [a; b; c]
    (fun idx => get x (unflatten (shape x) (flatten [a; b; c] idx))).
Proof.
  intros Hn Hpos. unfold reshape. cbn [filter length map].
  assert (Hk : numel [a; b; 1] = a * b) by (cbn; lia). rewrite Hk, Hn.
  replace (a * b * c) with (c * (a * b)) by lia.
  rewrite Nat.div_mul by lia. rewrite Nat.Div0.mod_mul.
  destruct (a * b) as [|k] eqn:E; [lia|].
  cbn [Nat.ltb Nat.leb andb Nat.eqb orb].
  rewrite orb_true_r.
  eexists; repeat split.
Qed.

Lemma reshape4_ok {A} (x : Tensor A) (a b c d : nat) :
  numel (shape x) = a * b * c * d -> 0 < a * c * d ->
  yields (reshape [Some a; None; Some c; Some d] x) [a; b; c; d]
    (fun idx => get x (unflatten (shape x) (flatten [a; b; c; d] idx))).
Proof.
  intros Hn Hpos. unfold reshape. cbn [filter length map].
  assert (Hk : numel [a; 1; c; d] = a * c * d) by (cbn; lia). rewrite Hk, Hn.
  replace (a * b * c * d) with (b * (a * c * d)) by lia.
  rewrite Nat.div_mul by lia. rewrite Nat.Div0.mod_mul.
  destruct (a * c * d) as [|k] eqn:E; [lia|].
  cbn [Nat.ltb Nat.leb andb Nat.eqb orb].
  rewrite orb_true_r.
  eexists; repeat split.
Qed.

(** ** Index arithmetic *)

Lemma firstn_app_len (l m : list nat) : firstn (length l) (l ++ m) = l.
Proof. induction l as [|a l IH]; cbn; [reflexivity|]. rewrite IH. reflexivity. Qed.

Lemma flatten_lt (s idx : list nat) :
  Forall2 lt idx s -> flatten s idx < numel s.
Proof.
  intros H. induction H as [|i d idx s Hi H IH]; cbn [flatten numel fold_right].
  - lia.
  - fold (numel s). nia.
Qed.

Lemma unflatten_flatten (s idx : list nat) :
  Forall2 lt idx s -> unflatten s (flatten s idx) = idx.
Proof.
  intros H. induction H as [|i d idx s Hi H IH]; cbn [flatten unflatten]; [reflexivity|].
  pose proof (flatten_lt s idx H) as Hb.
  assert (Hpos : numel s <> 0) by lia.
  rewrite Nat.div_add_l by exact Hpos. rewrite Nat.div_small by exact Hb.
  rewrite Nat.add_0_r. f_equal.
  rewrite Nat.add_comm, Nat.Div0.mod_add, Nat.mod_small by exact Hb. exact IH.
Qed.

(** Splitting the last dimension [p * q] into [p; q]. *)
Lemma flatten_split (s idx : list nat) (p q h d : nat) :
  length idx = length s -> d < q ->
  flatten (s ++ [p; q]) (idx ++ [h; d]) = flatten (s ++ [p * q]) (idx ++ [h * q + d]).
Proof.
  revert idx. induction s as [|a s IH]; intros idx Hl Hd.
  - destruct idx; [|discriminate]. cbn. lia.
  - destruct idx as [|i idx]; [discriminate|]. cbn [app flatten].
    rewrite IH by (cbn in Hl; lia). f_equal. f_equal.
    rewrite !numel_app. cbn. lia.
Qed.

Lemma Forall2_app_lt (a b c d : list nat) :
  Forall2 lt a c -> Forall2 lt b d -> Forall2 lt (a ++ b) (c ++ d).
Proof. intros H1 H2. apply Forall2_app; assumption. Qed.

(** ** Per-operation results *)

Lemma Linear_ok (m : Linear) (x : Tensor R) (pre : list nat) :
  shape x = pre ++ [in_features m] ->
  yields (Linear_forward m x) (pre ++ [out_features m])
    (fun idx => (rsum (in_features m)
                   (fun i => l_weight m (nth (length pre) idx 0%nat) i
                             * get x (firstn (length pre) idx ++ [i]))
                 + optb (l_bias m) (nth (length pre) idx 0%nat))%R).
Proof.
  intros Hs. unfold Linear_forward. cbv zeta.
  assert (Hr : length (shape x) - 1 = length pre) by (rewrite Hs, length_app; cbn; lia).
  rewrite Hr.
  assert (Hl : nth (length pre) (shape x) 0 = in_features m) by (rewrite Hs; apply nth_middle).
  rewrite Hl, Nat.eqb_refl.
  assert (Hf : firstn (length pre) (shape x) = pre) by (rewrite Hs; apply firstn_app_len).
  rewrite Hf.
  destruct (shape x) eqn:E; [destruct pre; discriminate|].
  eexists; repeat split.
Qed.

Lemma transpose_ok {A} (x : Tensor A) (d1 d2 : Z) (i j : nat) :
  wrap_dim (length (shape x)) d1 = Some i -> wrap_dim (length (shape x)) d2 = Some j ->
  yields (transpose x d1 d2) (permute i j (shape x)) (fun idx => get x (permute i j idx)).
Proof.
  intros H1 H2. unfold transpose. cbv zeta. rewrite H1, H2. eexists; repeat split.
Qed.

Lemma unsqueeze_ok {A} (x : Tensor A) (d : Z) (p : nat) :
  wrap_dim (S (length (shape x))) d = Some p ->
  yields (unsqueeze x d) (insert_at p 1 (shape x)) (fun idx => get x (remove_at p idx)).
Proof. intros H. unfold unsqueeze. rewrite H. eexists; repeat split. Qed.

(** [matmul] on rank-4 operands. *)
Lemma matmul4_ok (a b : Tensor R) (B H n m p : nat) :
  shape a = [B; H; n; m] -> shape b = [B; H; m; p] ->
  yields (matmul a b) [B; H; n; p]
    (fun idx => rsum m (fun j =>
       (get a (firstn 2 idx ++ [nth 2 idx 0%nat; j])
        * get b (firstn 2 idx ++ [j; nth 3 idx 0%nat]))%R)).
Proof.
  intros Ha Hb. unfold matmul. rewrite Ha, Hb. cbn [length Nat.leb andb Nat.eqb Nat.sub firstn nth].
  unfold shape_eqb. destruct (list_eq_dec Nat.eq_dec [B; H] [B; H]) as [_|C]; [|congruence].
  rewrite Nat.eqb_refl. cbn [andb].
  eexists; repeat split.
Qed.

Lemma add_ok (x y : Tensor R) :
  shape x = shape y ->
  yields (add x y) (shape x) (fun i => (get x i + get y i)%R).
Proof.
  intros H. unfold add, shape_eqb. destruct (list_eq_dec Nat.eq_dec (shape x) (shape y));
    [|congruence]. eexists; repeat split.
Qed.

Lemma masked_fill_ok (x : Tensor R) (m : Tensor bool) (v : R) :
  broadcastable (shape m) (shape x) = true ->
  yields (masked_fill x m v) (shape x)
    (fun idx => if get m (bcast_index (shape m) (shape x) idx) then v else get x idx).
Proof. intros H. unfold masked_fill. rewrite H. eexists; repeat split. Qed.

Lemma softmax_ok (x : Tensor R) (pre : list nat) (n : nat) :
  shape x = pre ++ [n] ->
  yields (softmax_last x) (pre ++ [n])
    (fun idx => (exp (get x idx)
                 / rsum n (fun j => exp (get x (replace_at (length pre) j idx))))%R).
Proof.
  intros Hs. unfold softmax_last. cbv zeta.
  assert (Hr : length (shape x) - 1 = length pre) by (rewrite Hs, length_app; cbn; lia).
  rewrite Hr.
  assert (Hl : nth (length pre) (shape x) 0 = n) by (rewrite Hs; apply nth_middle).
  rewrite Hl.
  destruct (shape x) eqn:E; [destruct pre; discriminate|].
  eexists; split; [reflexivity|split; [cbn; congruence|intros; reflexivity]].
Qed.

Lemma LayerNorm_ok (m : LayerNorm) (x : Tensor R) (pre : list nat) :
  shape x = pre ++ [normalized_dim m] ->
  yields (LayerNorm_forward m x) (pre ++ [normalized_dim m])
    (fun idx =>
       let k := nth (length pre) idx 0%nat in
       let row := fun j => get x (replace_at (length pre) j idx) in
       ((get x idx - ln_mean (normalized_dim m) row)
          / sqrt (ln_var (normalized_dim m) row + ln_eps m) * ln_weight m k
        + ln_bias m k)%R).
Proof.
  intros Hs. unfold LayerNorm_forward. cbv zeta.
  assert (Hr : length (shape x) - 1 = length pre) by (rewrite Hs, length_app; cbn; lia).
  rewrite Hr.
  assert (Hl : nth (length pre) (shape x) 0 = normalized_dim m) by (rewrite Hs; apply nth_middle).
  rewrite Hl, Nat.eqb_refl.
  destruct (shape x) eqn:E; [destruct pre; discriminate|].
  eexists; split; [reflexivity|split; [cbn; congruence|intros; reflexivity]].
Qed.

Lemma Dropout_ok (d : Dropout) (x : Tensor R) (rng : Rng) (n : nat) :
  myields (Dropout_forward d x) rng n (if training d then S n else n) (shape x)
    (fun idx => if training d then
                  (if rng n idx then (get x idx / (1 - drop_p d))%R else 0%R)
                else get x idx).
Proof.
  unfold Dropout_forward, myields. destruct (training d).
  - eexists; repeat split.
  - eexists; repeat split.
Qed.

Lemma conv_out_len_ok (len k pad s : nat) :
  k <= len + 2 * pad -> 0 < s ->
  conv_out_len len k pad s = Some ((len + 2 * pad - k) / s + 1).
Proof.
  intros H1 H2. unfold conv_out_len.
  apply Nat.leb_le in H1. apply Nat.ltb_lt in H2. rewrite H1, H2. reflexivity.
Qed.

Lemma Conv2d_ok (m : Conv2d) (x : Tensor R) (N H W Ho Wo : nat) :
  shape x = [N; in_channels m; H; W] ->
  conv_out_len H (kh m) (ph m) (sh m) = Some Ho ->
  conv_out_len W (kw m) (pw m) (sw m) = Some Wo ->
  exists y, Conv2d_forward m x = Some y /\ shape y = [N; out_channels m; Ho; Wo] /\
    (c_bias m = None -> (forall i, get x i = 0%R) -> forall i, get y i = 0%R).
Proof.
  intros Hs H1 H2. unfold Conv2d_forward. rewrite Hs, Nat.eqb_refl, H1, H2.
  eexists; split; [reflexivity|]. split; [reflexivity|].
  intros Hb Hz idx. cbn [get]. rewrite Hb. cbn [optb]. rewrite Rplus_0_r.
  apply rsum_zero; intros c _. apply rsum_zero; intros u _. apply rsum_zero; intros v _.
  unfold padded. destruct (_ || _); [lra|]. rewrite Hz. lra.
Qed.

(** ** [AudioExtractor] *)

Lemma relu_zero (x : Tensor R) : (forall i, get x i = 0%R) -> forall i, get (relu x) i = 0%R.
Proof. intros H i. cbn. rewrite H. unfold Rmax. destruct (Rle_dec 0 0); lra. Qed.

Lemma stack_index (B b t k : nat) :
  b < B -> t < 512 -> k < 768 ->
  unflatten [B; 512; 24; 32] (flatten [B; 512; 768] [b; t; k]) = [b; t; k / 32; k mod 32].
Proof.
  intros Hb Ht Hk.
  assert (E : flatten [B; 512; 768] [b; t; k]
              = flatten ([B; 512] ++ [24; 32]) ([b; t] ++ [k / 32; k mod 32])).
  { rewrite flatten_split by (reflexivity || apply Nat.mod_upper_bound; lia).
    change ([B; 512] ++ [24 * 32]) with [B; 512; 768].
    change ([b; t] ++ [k / 32 * 32 + k mod 32]) with [b; t; k / 32 * 32 + k mod 32].
    rewrite (Nat.mul_comm (k / 32) 32), <- (Nat.div_mod_eq k 32). reflexivity. }
  rewrite E. apply unflatten_flatten.
  apply Forall2_cons; [exact Hb|]. apply Forall2_cons; [exact Ht|].
  apply Forall2_cons; [apply Nat.Div0.div_lt_upper_bound; lia|].
  apply Forall2_cons; [apply Nat.mod_upper_bound; lia|]. apply Forall2_nil.
Qed.

Lemma AudioExtractor_ok (st : Store) (p : list seg) (x : Tensor R) (B : nat) :
  shape x = [B; 2; 512; 128] -> 1 <= B ->
  let m := AudioExtractor_init st p in
  exists x1 x2 x3 x4 y,
    Conv2d_forward (conv1 m) x = Some x1 /\ shape x1 = [B; 8; 512; 64] /\
    Conv2d_forward (conv2 m) (relu x1) = Some x2 /\ shape x2 = [B; 8; 512; 64] /\
    Conv2d_forward (conv3 m) (relu x2) = Some x3 /\ shape x3 = [B; 24; 512; 32] /\
    Conv2d_forward (conv4 m) (relu x3) = Some x4 /\ shape x4 = [B; 24; 512; 32] /\
    AudioExtractor_forward m x = Some y /\ shape y = [B; 512; 768] /\
    (forall b t k, b < B -> t < 512 -> k < 768 ->
       get y [b; t; k] = get x4 [b; k / 32; t; k mod 32]) /\
    ((forall i, get x i = 0%R) -> forall i, get y i = 0%R).
Proof.
  intros Hs HB m.
  destruct (Conv2d_ok (conv1 m) x B 512 128 512 64 Hs eq_refl eq_refl)
    as (x1 & E1 & S1 & Z1).
  destruct (Conv2d_ok (conv2 m) (relu x1) B 512 64 512 64 S1 eq_refl eq_refl)
    as (x2 & E2 & S2 & Z2).
  destruct (Conv2d_ok (conv3 m) (relu x2) B 512 64 512 32 S2 eq_refl eq_refl)
    as (x3 & E3 & S3 & Z3).
  destruct (Conv2d_ok (conv4 m) (relu x3) B 512 32 512 32 S3 eq_refl eq_refl)
    as (x4 & E4 & S4 & Z4).
  assert (W : wrap_dim (length (shape x4)) 2 = Some 2 /\
              wrap_dim (length (shape x4)) 1 = Some 1) by (rewrite S4; split; reflexivity).
  destruct (transpose_ok x4 2 1 2 1 (proj1 W) (proj2 W)) as (xt & Et & St & Gt).
  assert (St' : shape xt = [B; 512; 24; 32]) by (rewrite St, S4; reflexivity).
  clear St. rename St' into St.
  assert (N : numel (shape xt) = B * 512 * 768)
    by (rewrite St; unfold numel; cbn [fold_right]; lia).
  destruct (reshape3_ok xt B 512 768 N ltac:(lia)) as (y & Ey & Sy & Gy).
  exists x1, x2, x3, x4, y.
  split; [exact E1|]. split; [exact S1|]. split; [exact E2|]. split; [exact S2|].
  split; [exact E3|]. split; [exact S3|]. split; [exact E4|]. split; [exact S4|].
  split.
  { unfold AudioExtractor_forward, size. rewrite Hs. cbn [nth_error].
    rewrite E1, E2, E3, E4, Et. exact Ey. }
  split; [exact Sy|]. split.
  - intros b t k Hb Ht Hk. rewrite Gy, St, stack_index by assumption.
    rewrite Gt. reflexivity.
  - intros Hz i. rewrite Gy, Gt.
    apply Z4; [reflexivity|]. apply relu_zero. apply Z3; [reflexivity|].
    apply relu_zero. apply Z2; [reflexivity|]. apply relu_zero. apply Z1; [reflexivity|].
    exact Hz.
Qed.

(** ** [padding_mask_audio] *)

Lemma padding_mask_ok (x : Tensor R) (B L D : nat) :
  shape x = [B; L; D] ->
  exists msk, padding_mask_audio x = Some msk /\ shape msk = [B; 1; L] /\
    forall b z t, get msk [b; z; t] = forallb (fun j => if Req_dec_T (get x [b; t; j]) 0 then false else true) (seq 0 D).
Proof.
  intros Hs. unfold padding_mask_audio, all_dim, ne0, tmap. cbn [shape get]. rewrite Hs.
  cbn [length Nat.ltb Nat.leb nth remove_at firstn skipn app].
  unfold unsqueeze. cbn [shape length]. change (wrap_dim 3 (-2)) with (Some 1).
  eexists; split; [reflexivity|]. split; [reflexivity|].
  intros b z t. reflexivity.
Qed.

Lemma forallb_ne0_iff (D : nat) (f : nat -> R) :
  forallb (fun j => if Req_dec_T (f j) 0 then false else true) (seq 0 D) = true
  <-> forall k, k < D -> f k <> 0%R.
Proof.
  rewrite forallb_forall. split.
  - intros H k Hk. specialize (H k). rewrite in_seq in H.
    destruct (Req_dec_T (f k) 0); [|assumption]. discriminate H. lia.
  - intros H k Hk. rewrite in_seq in Hk. destruct (Req_dec_T (f k) 0) as [E|]; [|reflexivity].
    exfalso. apply (H k); [lia|exact E].
Qed.

(** ** [Self_Attention] *)

Ltac lstep E := rewrite (bind_some _ _ _ _ _ _ (lift_some _ _ _ _ E)); cbv beta.
Ltac mstep E := rewrite (bind_some _ _ _ _ _ _ E); cbv beta iota.

Lemma bcast_mask_index (a h L S b hh i j : nat) :
  b < a -> j < S ->
  remove_at 1 (bcast_index [a; 1; 1; S] [a; h; L; S] [b; hh; i; j]) = [b; 0; j].
Proof.
  intros Hb Hj. unfold bcast_index. cbn.
  destruct (a =? 1) eqn:Ea; [apply Nat.eqb_eq in Ea; replace b with 0 by lia|];
  (destruct (S =? 1) eqn:Es; [apply Nat.eqb_eq in Es; replace j with 0 by lia|]); reflexivity.
Qed.

Lemma bcast_mask_ok (a h L S : nat) :
  broadcastable [a; 1; 1; S] [a; h; L; S] = true.
Proof. unfold broadcastable. cbn. rewrite !Nat.eqb_refl, !orb_true_r. reflexivity. Qed.

Lemma Self_Attention_ok (Q K V : Tensor R) (mask : option (Tensor bool)) (rng : Rng) (n : nat)
    (a h L S d e : nat) :
  shape Q = [a; h; L; d] -> shape K = [a; h; S; d] -> shape V = [a; h; S; e] ->
  match mask with Some mm => shape mm = [a; 1; S] | None => True end ->
  exists att score,
    Self_Attention Q K V mask rng n = Some ((att, score), Datatypes.S n) /\
    shape att = [a; h; L; e] /\ shape score = [a; h; L; S] /\
    (forall b hh i j, b < a -> j < S ->
       get score [b; hh; i; j] =
       if rng n [b; hh; i; j] then
         (exp (sa_logit Q K d mask b hh i j)
          / rsum S (fun j' => exp (sa_logit Q K d mask b hh i j')) / (1 - 1 / 10))%R
       else 0%R) /\
    (forall b hh i k,
       get att [b; hh; i; k] = rsum S (fun j => (get score [b; hh; i; j] * get V [b; hh; j; k])%R)).
Proof.
  intros HQ HK HV HM.
  assert (W : wrap_dim (length (shape K)) (-2) = Some 2 /\ wrap_dim (length (shape K)) (-1) = Some 3)
    by (rewrite HK; split; reflexivity).
  destruct (transpose_ok K (-2) (-1) 2 3 (proj1 W) (proj2 W)) as (Kt & EKt & SKt & GKt).
  rewrite HK in SKt. change (permute 2 3 [a; h; S; d]) with [a; h; d; S] in SKt.
  destruct (matmul4_ok Q Kt a h L d S HQ SKt) as (KV & EKV & SKV & GKV).
  set (sc0 := tmap (fun v => (v / sqrt (INR (last (shape Q) 0%nat)))%R) KV).
  assert (Ssc0 : shape sc0 = [a; h; L; S]) by exact SKV.
  assert (Gsc0 : forall b hh i j, get sc0 [b; hh; i; j] = sa_raw Q K d b hh i j).
  { intros. unfold sc0, tmap, sa_raw. cbn [get]. rewrite GKV, HQ. cbn [last firstn nth app].
    f_equal. apply rsum_ext. intros u _. rewrite GKt. reflexivity. }
  (* the masked score tensor *)
  assert (Hmask : exists sc1,
     match mask with
     | None => ret sc0
     | Some mask => let* mask := lift (unsqueeze mask 1) in
                    lift (masked_fill sc0 (tmap negb mask) (- 1000000000)%R)
     end rng n = Some (sc1, n) /\ shape sc1 = [a; h; L; S] /\
     forall b hh i j, b < a -> j < S -> get sc1 [b; hh; i; j] = sa_logit Q K d mask b hh i j).
  { destruct mask as [mm|].
    - assert (Wm : wrap_dim (Datatypes.S (length (shape mm))) 1 = Some 1) by (rewrite HM; reflexivity).
      destruct (unsqueeze_ok mm 1 1 Wm) as (mu & Emu & Smu & Gmu).
      rewrite HM in Smu. change (insert_at 1 1 [a; 1; S]) with [a; 1; 1; S] in Smu.
      assert (Bc : broadcastable (shape (tmap negb mu)) (shape sc0) = true)
        by (cbn [tmap shape]; rewrite Smu, Ssc0; apply bcast_mask_ok).
      destruct (masked_fill_ok sc0 (tmap negb mu) (- 1000000000)%R Bc) as (sc1 & E1 & S1 & G1).
      exists sc1. split; [lstep Emu; apply lift_some; exact E1|]. split; [congruence|].
      intros b hh i j Hb Hj. rewrite G1. cbn [tmap get shape]. rewrite Gmu, Smu, Ssc0.
      rewrite bcast_mask_index by assumption. unfold sa_logit.
      destruct (get mm [b; 0; j]); cbn [negb]; [apply Gsc0|reflexivity].
    - exists sc0. split; [reflexivity|]. split; [exact Ssc0|]. intros. apply Gsc0. }
  destruct Hmask as (sc1 & E1 & S1 & G1).
  destruct (softmax_ok sc1 [a; h; L] S S1) as (sm & Esm & Ssm & Gsm).
  destruct (Dropout_ok (nn_Dropout (1 / 10)%R) sm rng n) as (sc & Esc & Ssc & Gsc).
  cbn [training nn_Dropout] in Esc, Gsc.
  assert (Ssc' : shape sc = [a; h; L; S]) by (rewrite Ssc; exact Ssm).
  destruct (matmul4_ok sc V a h L S e Ssc' HV) as (att & Eatt & Satt & Gatt).
  exists att, sc. split.
  { unfold Self_Attention. lstep EKt. lstep EKV. cbv zeta. fold sc0.
    mstep E1. lstep Esm. mstep Esc. lstep Eatt. reflexivity. }
  split; [exact Satt|]. split; [exact Ssc'|]. split.
  - intros b hh i j Hb Hj. rewrite Gsc. cbn [drop_p nn_Dropout].
    destruct (rng n [b; hh; i; j]); [|reflexivity].
    rewrite Gsm. cbn [length replace_at firstn skipn app]. rewrite G1 by assumption.
    erewrite rsum_ext; [reflexivity|]. intros j' Hj'. cbn beta.
    rewrite G1 by assumption. reflexivity.
  - intros b hh i k. rewrite Gatt. reflexivity.
Qed.

(** ** [MHA] *)

Lemma merge_index (B L H hd b t h d : nat) :
  b < B -> t < L -> h < H -> d < hd ->
  unflatten [B; L; H * hd] (flatten [B; L; H; hd] [b; t; h; d]) = [b; t; h * hd + d].
Proof.
  intros Hb Ht Hh Hd.
  change [B; L; H; hd] with ([B; L] ++ [H; hd]). change [b; t; h; d] with ([b; t] ++ [h; d]).
  rewrite flatten_split by (reflexivity || exact Hd). cbn [app].
  apply unflatten_flatten.
  apply Forall2_cons; [exact Hb|]. apply Forall2_cons; [exact Ht|].
  apply Forall2_cons; [nia|]. apply Forall2_nil.
Qed.

Lemma split_index (B L H hd b t k : nat) :
  b < B -> t < L -> k < H * hd ->
  unflatten [B; L; H; hd] (flatten [B; L; H * hd] [b; t; k]) = [b; t; k / hd; k mod hd].
Proof.
  intros Hb Ht Hk.
  assert (Hq : 0 < hd) by (destruct hd; lia).
  assert (E : flatten [B; L; H * hd] [b; t; k]
              = flatten ([B; L] ++ [H; hd]) ([b; t] ++ [k / hd; k mod hd])).
  { rewrite flatten_split by (reflexivity || apply Nat.mod_upper_bound; lia).
    cbn [app]. rewrite (Nat.mul_comm (k / hd) hd), <- (Nat.div_mod_eq k hd). reflexivity. }
  rewrite E. apply unflatten_flatten. cbn [app].
  apply Forall2_cons; [exact Hb|]. apply Forall2_cons; [exact Ht|].
  apply Forall2_cons; [apply Nat.Div0.div_lt_upper_bound; lia|].
  apply Forall2_cons; [apply Nat.mod_upper_bound; lia|]. apply Forall2_nil.
Qed.

Lemma reshape3m_ok {A} (x : Tensor A) (a b c : nat) :
  numel (shape x) = a * b * c -> 0 < a * c ->
  yields (reshape [Some a; None; Some c] x) [a; b; c]
    (fun idx => get x (unflatten (shape x) (flatten [a; b; c] idx))).
Proof.
  intros Hn Hpos. unfold reshape. cbn [filter length map].
  assert (Hk : numel [a; 1; c] = a * c) by (cbn; lia). rewrite Hk, Hn.
  replace (a * b * c) with (b * (a * c)) by lia.
  rewrite Nat.div_mul by lia. rewrite Nat.Div0.mod_mul.
  destruct (a * c) as [|k] eqn:E; [lia|].
  cbn [Nat.ltb Nat.leb andb Nat.eqb orb].
  rewrite orb_true_r.
  eexists; repeat split.
Qed.

Lemma heads_ok (m : MHA) (fc : Linear) (x : Tensor R) (B L hid : nat) :
  in_features fc = hid -> out_features fc = hid -> l_bias fc = None ->
  num_head m * head_dim m = hid -> 1 <= B -> 0 < hid ->
  shape x = [B; L; hid] ->
  exists X3 X,
    Linear_forward fc x = Some X3 /\ shape X3 = [B; L; hid] /\
    (forall b t k, get X3 [b; t; k] = rsum hid (fun i => (l_weight fc k i * get x [b; t; i])%R)) /\
    heads m fc B x = Some X /\ shape X = [B; num_head m; L; head_dim m] /\
    (forall b h t d, b < B -> h < num_head m -> t < L -> d < head_dim m ->
       get X [b; h; t; d] = get X3 [b; t; h * head_dim m + d]).
Proof.
  intros Hin Hout Hbias Hdiv HB Hpos Hs.
  assert (Hs' : shape x = [B; L] ++ [in_features fc]) by (rewrite Hs, Hin; reflexivity).
  destruct (Linear_ok fc x [B; L] Hs') as (X3 & E3 & S3 & G3).
  rewrite Hout in S3. cbn [app] in S3.
  assert (N : numel (shape X3) = B * L * num_head m * head_dim m)
    by (rewrite S3; unfold numel; cbn [fold_right]; rewrite <- Hdiv; lia).
  destruct (reshape4_ok X3 B L (num_head m) (head_dim m) N ltac:(nia)) as (X4 & E4 & S4 & G4).
  assert (W : wrap_dim (length (shape X4)) 1 = Some 1 /\ wrap_dim (length (shape X4)) 2 = Some 2)
    by (rewrite S4; split; reflexivity).
  destruct (transpose_ok X4 1 2 1 2 (proj1 W) (proj2 W)) as (X & E & SX & GX).
  exists X3, X. split; [exact E3|]. split; [exact S3|]. split.
  { intros b t k. rewrite G3, Hbias. cbn [optb length firstn nth app]. rewrite Rplus_0_r.
    rewrite Hin. reflexivity. }
  split.
  { unfold heads. rewrite E3. unfold view. rewrite E4. exact E. }
  split; [rewrite SX, S4; reflexivity|].
  intros b h t d Hb Hh Ht Hd. rewrite GX, G4. cbn [permute].
  change (permute 1 2 [b; h; t; d]) with [b; t; h; d].
  rewrite S3, <- Hdiv, merge_index by assumption. reflexivity.
Qed.

Lemma MHA_ok (st : Store) (p : list seg) (hid H : nat) (dr : R) (x : Tensor R)
    (mask : option (Tensor bool)) (rng : Rng) (n B L : nat) :
  let m := MHA_init st p hid H dr in
  let hd := hid / H in
  H * hd = hid -> 1 <= B -> 0 < hid -> shape x = [B; L; hid] ->
  match mask with Some mm => shape mm = [B; 1; L] | None => True end ->
  exists Q3 K3 V3 Q K V att score y,
    heads m (Q_fc m) B x = Some Q /\ shape Q = [B; H; L; hd] /\
    heads m (K_fc m) B x = Some K /\ shape K = [B; H; L; hd] /\
    heads m (V_fc m) B x = Some V /\ shape V = [B; H; L; hd] /\
    (forall b t k, get Q3 [b; t; k] = rsum hid (fun i => (l_weight (Q_fc m) k i * get x [b; t; i])%R)) /\
    (forall b t k, get K3 [b; t; k] = rsum hid (fun i => (l_weight (K_fc m) k i * get x [b; t; i])%R)) /\
    (forall b t k, get V3 [b; t; k] = rsum hid (fun i => (l_weight (V_fc m) k i * get x [b; t; i])%R)) /\
    (forall b h t d, b < B -> h < H -> t < L -> d < hd ->
       get Q [b; h; t; d] = get Q3 [b; t; h * hd + d] /\
       get K [b; h; t; d] = get K3 [b; t; h * hd + d] /\
       get V [b; h; t; d] = get V3 [b; t; h * hd + d]) /\
    Self_Attention Q K V mask rng n = Some ((att, score), S n) /\ shape att = [B; H; L; hd] /\
    MHA_forward m x x x mask rng n = Some (y, S n) /\ shape y = [B; L; hid] /\
    (forall b t k, b < B -> t < L -> k < hid ->
       get y [b; t; k] = rsum hid (fun i => (l_weight (Out_fc m) k i * get att [b; (i / hd)%nat; t; (i mod hd)%nat])%R)).
Proof.
  intros m hd Hdiv HB Hpos Hs HM.
  destruct (heads_ok m (Q_fc m) x B L hid eq_refl eq_refl eq_refl Hdiv HB Hpos Hs)
    as (Q3 & Q & EQ3 & SQ3 & GQ3 & EQ & SQ & GQ).
  destruct (heads_ok m (K_fc m) x B L hid eq_refl eq_refl eq_refl Hdiv HB Hpos Hs)
    as (K3 & K & EK3 & SK3 & GK3 & EK & SK & GK).
  destruct (heads_ok m (V_fc m) x B L hid eq_refl eq_refl eq_refl Hdiv HB Hpos Hs)
    as (V3 & V & EV3 & SV3 & GV3 & EV & SV & GV).
  destruct (Self_Attention_ok Q K V mask rng n B H L L hd hd SQ SK SV HM)
    as (att & score & Esa & Satt & Sscore & Gscore & Gatt).
  assert (W : wrap_dim (length (shape att)) 1 = Some 1 /\ wrap_dim (length (shape att)) 2 = Some 2)
    by (rewrite Satt; split; reflexivity).
  destruct (transpose_ok att 1 2 1 2 (proj1 W) (proj2 W)) as (attT & ET & ST & GT).
  rewrite Satt in ST. change (permute 1 2 [B; H; L; hd]) with [B; L; H; hd] in ST.
  assert (N : numel (shape attT) = B * L * hid)
    by (rewrite ST; unfold numel; cbn [fold_right]; rewrite <- Hdiv; lia).
  destruct (reshape3m_ok attT B L hid N ltac:(nia)) as (att3 & E3 & S3 & G3).
  assert (S3' : shape att3 = [B; L] ++ [in_features (Out_fc m)]) by (rewrite S3; reflexivity).
  destruct (Linear_ok (Out_fc m) att3 [B; L] S3') as (y & Ey & Sy & Gy).
  exists Q3, K3, V3, Q, K, V, att, score, y.
  split; [exact EQ|]. split; [exact SQ|]. split; [exact EK|]. split; [exact SK|].
  split; [exact EV|]. split; [exact SV|].
  split; [exact GQ3|]. split; [exact GK3|]. split; [exact GV3|].
  split; [intros; split; [apply GQ|split; [apply GK|apply GV]]; assumption|].
  split; [exact Esa|]. split; [exact Satt|]. split.
  { unfold MHA_forward. unfold size at 1. rewrite Hs. cbn [nth_error].
    erewrite bind_some; [cbv beta|reflexivity].
    lstep EQ. lstep EK. lstep EV. mstep Esa. lstep ET. unfold view. lstep E3.
    apply lift_some. exact Ey. }
  split; [exact Sy|].
  intros b t k Hb Ht Hk. rewrite Gy. cbn [optb Out_fc m MHA_init nn_Linear l_bias length firstn nth app].
  rewrite Rplus_0_r. apply rsum_ext. intros i Hi. f_equal.
  rewrite G3, ST. rewrite <- Hdiv in Hi. rewrite <- Hdiv.
  rewrite split_index by assumption. rewrite GT. reflexivity.
Qed.

(** ** [FFN], [AELayer1], [AEBlock1] *)

Lemma FFN_ok (f : FFN) (x : Tensor R) (pre : list nat) (hid : nat) (rng : Rng) (n : nat) :
  in_features (fc1 f) = hid -> in_features (fc2 f) = out_features (fc1 f) ->
  out_features (fc2 f) = hid -> shape x = pre ++ [hid] ->
  exists h1 d h2 z n',
    Linear_forward (fc1 f) x = Some h1 /\ shape h1 = pre ++ [out_features (fc1 f)] /\
    Dropout_forward (ffn_dropout f) (relu h1) rng n = Some (d, n') /\
    Linear_forward (fc2 f) d = Some h2 /\ shape h2 = pre ++ [hid] /\
    add h2 x = Some z /\ shape z = pre ++ [hid] /\
    FFN_forward f x rng n = Some (z, n').
Proof.
  intros H1 H2 H3 Hs.
  assert (Hs1 : shape x = pre ++ [in_features (fc1 f)]) by (rewrite Hs, H1; reflexivity).
  destruct (Linear_ok (fc1 f) x pre Hs1) as (h1 & E1 & S1 & _).
  destruct (Dropout_ok (ffn_dropout f) (relu h1) rng n) as (d & Ed & Sd & _).
  assert (Hs2 : shape d = pre ++ [in_features (fc2 f)]) by (rewrite Sd, H2; exact S1).
  destruct (Linear_ok (fc2 f) d pre Hs2) as (h2 & E2 & S2 & _).
  rewrite H3 in S2.
  destruct (add_ok h2 x ltac:(congruence)) as (z & Ez & Sz & _).
  exists h1, d, h2, z, (if training (ffn_dropout f) then S n else n).
  split; [exact E1|]. split; [exact S1|]. split; [exact Ed|]. split; [exact E2|].
  split; [exact S2|]. split; [exact Ez|]. split; [congruence|].
  unfold FFN_forward. lstep E1. mstep Ed. lstep E2. apply lift_some. exact Ez.
Qed.

Lemma layer_ok_init (st : Store) (p : list seg) (hid H inner : nat) :
  layer_ok (AELayer1_init st p hid H inner) hid H.
Proof.
  repeat split. exists st, (sub p "MHA"), (1 / 10)%R. intros. reflexivity.
Qed.

Lemma layer_ok_eval (st : Store) (p : list seg) (hid H inner : nat) :
  layer_ok (AELayer1_eval (AELayer1_init st p hid H inner)) hid H.
Proof.
  repeat split. exists st, (sub p "MHA"), (1 / 10)%R. intros. reflexivity.
Qed.

Lemma AELayer1_ok (a : AELayer1) (hid H : nat) (x : Tensor R) (mask : option (Tensor bool))
    (rng : Rng) (n B L : nat) :
  layer_ok a hid H -> H * (hid / H) = hid -> 1 <= B -> 0 < hid -> shape x = [B; L; hid] ->
  match mask with Some mm => shape mm = [B; 1; L] | None => True end ->
  exists mo d1 s1 o f d2 s2 y n1 n2 n3,
    MHA_forward (ae_MHA a) x x x mask rng n = Some (mo, S n) /\ shape mo = [B; L; hid] /\
    Dropout_forward (dropout1 a) mo rng (S n) = Some (d1, n1) /\
    add x d1 = Some s1 /\ LayerNorm_forward (layerNorm1 a) s1 = Some o /\
    shape s1 = [B; L; hid] /\ shape o = [B; L; hid] /\
    FFN_forward (ffn a) o rng n1 = Some (f, n2) /\ shape f = [B; L; hid] /\
    Dropout_forward (dropout2 a) f rng n2 = Some (d2, n3) /\
    add o d2 = Some s2 /\ LayerNorm_forward (layerNorm2 a) s2 = Some y /\
    shape s2 = [B; L; hid] /\ shape y = [B; L; hid] /\
    AELayer1_forward a x mask rng n = Some (y, n3).
Proof.
  intros (HM & Hn1 & Hn2 & Hf1 & Hf2 & Hf3) Hdiv HB Hpos Hs Hmask.
  destruct HM as (st & q & dr & HM).
  destruct (MHA_ok st q hid H dr x mask rng n B L Hdiv HB Hpos Hs Hmask)
    as (Q3 & K3 & V3 & Qh & Kh & Vh & att & sc & mo & EQ & SQ & EK & SK & EV & SV &
        GQ3 & GK3 & GV3 & GQKV & Esa & Satt & Emo & Smo & Gmo).
  rewrite <- HM in Emo.
  destruct (Dropout_ok (dropout1 a) mo rng (S n)) as (d1 & Ed1 & Sd1 & _).
  destruct (add_ok x d1 ltac:(congruence)) as (s1 & Es1 & Ss1 & _).
  assert (Ss1' : shape s1 = [B; L] ++ [normalized_dim (layerNorm1 a)]) by (rewrite Ss1, Hs, Hn1; reflexivity).
  destruct (LayerNorm_ok (layerNorm1 a) s1 [B; L] Ss1') as (o & Eo & So & _).
  rewrite Hn1 in So. cbn [app] in So.
  destruct (FFN_ok (ffn a) o [B; L] hid rng (if training (dropout1 a) then S (S n) else S n)
              Hf1 Hf2 Hf3 So)
    as (h1 & dd & h2 & f & nf & Eh1 & Sh1 & Edd & Eh2 & Sh2 & Ez & Sf & Ef).
  destruct (Dropout_ok (dropout2 a) f rng nf) as (d2 & Ed2 & Sd2 & _).
  destruct (add_ok o d2 ltac:(congruence)) as (s2 & Es2 & Ss2 & _).
  assert (Ss2' : shape s2 = [B; L] ++ [normalized_dim (layerNorm2 a)])
    by (rewrite Ss2, So, Hn2; reflexivity).
  destruct (LayerNorm_ok (layerNorm2 a) s2 [B; L] Ss2') as (y & Ey & Sy & _).
  rewrite Hn2 in Sy. cbn [app] in Sy.
  do 11 eexists.
  split; [exact Emo|]. split; [exact Smo|]. split; [exact Ed1|]. split; [exact Es1|].
  split; [exact Eo|]. split; [rewrite Ss1; exact Hs|]. split; [exact So|].
  split; [exact Ef|]. split; [exact Sf|]. split; [exact Ed2|]. split; [exact Es2|].
  split; [exact Ey|]. split; [rewrite Ss2; exact So|]. split; [exact Sy|].
  unfold AELayer1_forward. mstep Emo. mstep Ed1. lstep Es1. lstep Eo. mstep Ef.
  mstep Ed2. lstep Es2. apply lift_some. exact Ey.
Qed.

Lemma run_layers_ok (ls : list AELayer1) (hid H : nat) (x : Tensor R) (msk : Tensor bool)
    (rng : Rng) (n B L : nat) :
  Forall (fun a => layer_ok a hid H) ls -> H * (hid / H) = hid -> 1 <= B -> 0 < hid ->
  shape x = [B; L; hid] -> shape msk = [B; 1; L] ->
  exists y n', run_layers ls x msk rng n = Some (y, n') /\ shape y = [B; L; hid].
Proof.
  intros Hall Hdiv HB Hpos. revert x n. induction Hall as [|a ls Ha Hall IH]; intros x n Hs Hm.
  - exists x, n. split; [reflexivity|exact Hs].
  - destruct (AELayer1_ok a hid H x (Some msk) rng n B L Ha Hdiv HB Hpos Hs Hm)
      as (mo & d1 & s1 & o & f & d2 & s2 & y & n1 & n2 & n3 & _ & _ & _ & _ & _ & _ & _ & _ & _ &
          _ & _ & _ & _ & Sy & Ey).
    destruct (IH y n3 Sy Hm) as (z & n' & Ez & Sz).
    exists z, n'. split; [|exact Sz]. cbn [run_layers]. mstep Ey. exact Ez.
Qed.

Lemma AEBlock1_ok (blk : AEBlock1) (hid H : nat) (x : Tensor R) (rng : Rng) (n B L : nat) :
  Forall (fun a => layer_ok a hid H) (AE1 blk) -> H * (hid / H) = hid -> 1 <= B -> 0 < hid ->
  shape x = [B; L; hid] ->
  exists msk y n',
    padding_mask_audio x = Some msk /\ shape msk = [B; 1; L] /\
    run_layers (AE1 blk) x msk rng n = Some (y, n') /\
    AEBlock1_forward blk x rng n = Some (y, n') /\ shape y = [B; L; hid].
Proof.
  intros Hall Hdiv HB Hpos Hs.
  destruct (padding_mask_ok x B L hid Hs) as (msk & Em & Sm & _).
  destruct (run_layers_ok (AE1 blk) hid H x msk rng n B L Hall Hdiv HB Hpos Hs Sm)
    as (y & n' & Ey & Sy).
  exists msk, y, n'. split; [exact Em|]. split; [exact Sm|]. split; [exact Ey|].
  split; [|exact Sy]. unfold AEBlock1_forward. lstep Em. exact Ey.
Qed.

Lemma AEBlock1_init_layers (st : Store) (p : list seg) (hid H inner nl : nat) :
  Forall (fun a => layer_ok a hid H) (AE1 (AEBlock1_init st p hid H inner nl)).
Proof.
  cbn [AE1 AEBlock1_init]. apply Forall_map, Forall_forall. intros. apply layer_ok_init.
Qed.

Lemma AEBlock1_eval_layers (st : Store) (p : list seg) (hid H inner nl : nat) :
  Forall (fun a => layer_ok a hid H) (map AELayer1_eval (AE1 (AEBlock1_init st p hid H inner nl))).
Proof.
  cbn [AE1 AEBlock1_init]. rewrite map_map. apply Forall_map, Forall_forall. intros.
  apply layer_ok_eval.
Qed.

(** ** Inversion of the monad *)

Lemma bind_inv {A B} (c : M A) (k : A -> M B) rng n r :
  bind c k rng n = Some r -> exists a n', c rng n = Some (a, n') /\ k a rng n' = Some r.
Proof.
  unfold bind. destruct (c rng n) as [[a n']|]; [|discriminate]. intros H. exists a, n'. auto.
Qed.

Lemma lift_inv {A} (o : option A) rng n a n' : lift o rng n = Some (a, n') -> o = Some a /\ n' = n.
Proof. unfold lift. destruct o; [|discriminate]. intros H. injection H. intros; subst. auto. Qed.

Lemma yields_eq {A} (o : option (Tensor A)) y s f : yields o s f -> o = Some y -> shape y = s /\ forall i, get y i = f i.
Proof. intros (z & Ez & Sz & Gz) E. rewrite E in Ez. injection Ez. intros <-. auto. Qed.

(** ** [nn.GRU] with two layers, [batch_first=True] *)

Lemma shape_eqb_refl (s : list nat) : shape_eqb s s = true.
Proof. unfold shape_eqb. destruct (list_eq_dec Nat.eq_dec s s); congruence. Qed.

Lemma GRU2_ok (g : GRU) (x h0 : Tensor R) (rng : Rng) (n B T : nat) :
  g_batch_first g = true -> g_num_layers g = 2 ->
  shape x = [B; T; g_input_size g] -> shape h0 = [2; B; g_hidden_size g] ->
  exists nxt out h n',
    shape nxt = [B; T; g_hidden_size g] /\
    ((g_training g = false -> nxt = gru_layer0 g x h0 B T /\ n' = n) /\
     (g_training g = true -> g_dropout g <> 0%R -> n' = S n /\
        forall idx, get nxt idx =
          if rng n idx then (get (gru_layer0 g x h0 B T) idx / (1 - g_dropout g))%R else 0%R)) /\
    GRU_forward g x h0 rng n = Some ((out, h), n') /\
    shape out = [B; T; g_hidden_size g] /\
    (forall b t k, get out [b; t; k] =
       gru_state g 1 (g_hidden_size g) (fun t i => get nxt [b; t; i])
                 (fun k => get h0 [1; b; k]) (S t) k).
Proof.
  intros Hbf Hnl Hx Hh.
  set (out0 := gru_layer0 g x h0 B T).
  set (c := if (0 <? 1) && g_training g && (if Req_dec_T (g_dropout g) 0 then false else true)
            then Dropout_forward {| drop_p := g_dropout g; training := true |} out0
            else ret out0).
  assert (Ec : exists nxt n', c rng n = Some (nxt, n') /\ shape nxt = [B; T; g_hidden_size g] /\
                 ((g_training g = false -> nxt = out0 /\ n' = n) /\
                  (g_training g = true -> g_dropout g <> 0%R -> n' = S n /\
                     forall idx, get nxt idx =
                       if rng n idx then (get out0 idx / (1 - g_dropout g))%R else 0%R))).
  { unfold c. destruct (g_training g).
    - destruct (Req_dec_T (g_dropout g) 0) as [Hd|Hd]; cbn [andb Nat.ltb Nat.leb].
      + exists out0, n. split; [reflexivity|]. split; [reflexivity|].
        split; [discriminate|]. intros _ Hd'. contradiction.
      + destruct (Dropout_ok {| drop_p := g_dropout g; training := true |} out0 rng n)
          as (z & Ez & Sz & Gz).
        exists z, (S n). split; [exact Ez|]. split; [exact Sz|].
        split; [discriminate|]. intros _ _. split; [reflexivity|exact Gz].
    - cbn [andb]. exists out0, n. repeat split; discriminate. }
  destruct Ec as (nxt & n' & Ec & Sn & Tn).
  set (out1 := mkT [B; T; g_hidden_size g] (fun idx =>
      gru_state g 1 (g_hidden_size g) (fun t i => get nxt [nth 0 idx 0; t; i])
                (fun k => get h0 [1; nth 0 idx 0; k]) (S (nth 1 idx 0)) (nth 2 idx 0))).
  assert (Es : gru_stack g 0 2 (g_input_size g) B T x h0 rng n = Some ([out0; out1], n')).
  { cbn [gru_stack]. fold out0. fold c. mstep Ec. fold out1.
    cbn [Nat.ltb Nat.leb andb]. reflexivity. }
  eexists nxt, out1, _, n'. split; [exact Sn|]. split; [exact Tn|]. split.
  - unfold GRU_forward. rewrite Hbf. mstep (eq_refl (Some (x, n))).
    rewrite Hx, Hnl, Hh, Nat.eqb_refl, shape_eqb_refl. cbn [andb Nat.ltb Nat.leb].
    mstep Es. cbn [last]. reflexivity.
  - split; [reflexivity|]. intros b t k. reflexivity.
Qed.

Lemma select_ok (x : Tensor R) (B T Hd : nat) :
  shape x = [B; T; Hd] -> 0 < T ->
  yields (select_last_dim1 x) [B; Hd] (fun idx => get x [nth 0 idx 0; T - 1; nth 1 idx 0]).
Proof.
  intros Hs HT. unfold select_last_dim1. rewrite Hs. apply Nat.ltb_lt in HT. rewrite HT.
  eexists; repeat split.
Qed.

(** ** [AudioRegressor] *)

Lemma model_in_mode_parts (st : Store) (H inner nl : nat) (ev : bool) :
  let m := model_in_mode ev (AudioRegressor_init st 768 H inner nl) in
  Extractor m = AudioExtractor_init st [Nm "Extractor"] /\
  Forall (fun a => layer_ok a 768 H) (AE1 (block m)) /\
  g_batch_first (gru m) = true /\ g_num_layers (gru m) = 2 /\
  g_input_size (gru m) = 768 /\ g_hidden_size (gru m) = 64 /\ g_training (gru m) = negb ev /\
  fc m = nn_Linear st [Nm "fc"] 64 1 true.
Proof.
  intros m. destruct ev.
  - repeat split. apply AEBlock1_eval_layers.
  - repeat split. apply AEBlock1_init_layers.
Qed.

Lemma AudioRegressor_ok (st : Store) (H inner nl : nat) (ev : bool) (audio : Tensor R)
    (rng : Rng) (n B : nat) :
  H * (768 / H) = 768 -> 1 <= B -> shape audio = [B; 2; 512; 128] ->
  let m := model_in_mode ev (AudioRegressor_init st 768 H inner nl) in
  exists e enc n1 nxt out h ht pred n2,
    AudioExtractor_forward (Extractor m) audio = Some e /\ shape e = [B; 512; 768] /\
    AEBlock1_forward (block m) e rng n = Some (enc, n1) /\ shape enc = [B; 512; 768] /\
    shape nxt = [B; 512; 64] /\
    ((ev = true -> nxt = gru_layer0 (gru m) enc (zeros [2; B; 64]) B 512 /\ n2 = n1) /\
     (ev = false -> n2 = S n1 /\
        forall idx, get nxt idx =
          if rng n1 idx then Rdiv (get (gru_layer0 (gru m) enc (zeros [2; B; 64]) B 512) idx) (1 - 1 / 10)
          else 0%R)) /\
    GRU_forward (gru m) enc (zeros [2; B; 64]) rng n1 = Some ((out, h), n2) /\
    shape out = [B; 512; 64] /\
    (forall b t k, get out [b; t; k] =
       gru_state (gru m) 1 64 (fun t i => get nxt [b; t; i]) (fun _ => 0%R) (S t) k) /\
    select_last_dim1 out = Some ht /\ shape ht = [B; 64] /\
    (forall b k, get ht [b; k] = get out [b; 511; k]) /\
    Linear_forward (fc m) ht = Some pred /\ shape pred = [B; 1] /\
    (forall b, get pred [b; 0] =
       (rsum 64 (fun k => l_weight (fc m) 0 k * get ht [b; k]) + optb (l_bias (fc m)) 0)%R) /\
    AudioRegressor_forward m audio rng n = Some ((pred, enc), n2).
Proof.
  intros Hdiv HB Ha m.
  destruct (model_in_mode_parts st H inner nl ev)
    as (HE & Hall & Hbf & Hnl & Hin & Hhd & Htr & Hfc). fold m in HE, Hall, Hbf, Hnl, Hin, Hhd, Htr, Hfc.
  destruct (AudioExtractor_ok st [Nm "Extractor"] audio B Ha HB)
    as (x1 & x2 & x3 & x4 & e & _ & _ & _ & _ & _ & _ & _ & _ & Ee & Se & _ & _).
  rewrite <- HE in Ee.
  destruct (AEBlock1_ok (block m) 768 H e rng n B 512 Hall Hdiv HB ltac:(lia) Se)
    as (msk & enc & n1 & _ & _ & _ & Eenc & Senc).
  assert (Sx : shape enc = [B; 512; g_input_size (gru m)]) by (rewrite Hin; exact Senc).
  assert (Sh : shape (zeros [2; B; 64]) = [2; B; g_hidden_size (gru m)]) by (rewrite Hhd; reflexivity).
  destruct (GRU2_ok (gru m) enc (zeros [2; B; 64]) rng n1 B 512 Hbf Hnl Sx Sh)
    as (nxt & out & h & n2 & Snxt & Tnxt & Egru & Sout & Gout).
  rewrite Hhd in Snxt, Sout, Gout.
  destruct (select_ok out B 512 64 Sout ltac:(lia)) as (ht & Eht & Sht & Ght).
  assert (Sht' : shape ht = [B] ++ [in_features (fc m)]) by (rewrite Sht, Hfc; reflexivity).
  destruct (Linear_ok (fc m) ht [B] Sht') as (pred & Ep & Sp & Gp).
  exists e, enc, n1, nxt, out, h, ht, pred, n2.
  split; [exact Ee|]. split; [exact Se|]. split; [exact Eenc|]. split; [exact Senc|].
  split; [exact Snxt|]. split.
  { assert (Hdr : g_dropout (gru m) = (1 / 10)%R) by (unfold m; destruct ev; reflexivity).
    split.
    - intros Hev. apply (proj1 Tnxt). rewrite Htr, Hev. reflexivity.
    - intros Hev. rewrite <- Hdr. apply (proj2 Tnxt); [rewrite Htr, Hev; reflexivity|].
      rewrite Hdr. lra. }
  split; [exact Egru|]. split; [exact Sout|]. split; [exact Gout|].
  split; [exact Eht|]. split; [exact Sht|]. split; [intros; rewrite Ght; reflexivity|].
  split; [exact Ep|]. split; [rewrite Sp, Hfc; reflexivity|]. split.
  - intros b. rewrite Gp. rewrite Hfc at 1. cbn [in_features nn_Linear length nth firstn app].
    reflexivity.
  - unfold AudioRegressor_forward.
    assert (Esz : size audio 0 = Some B) by (unfold size; rewrite Ha; reflexivity).
    lstep Esz. lstep Ee. mstep Eenc. mstep Egru. lstep Eht. lstep Ep. reflexivity.
Qed.

Lemma AudioRegressor_forward_inv (m : AudioRegressor) (audio : Tensor R) (rng : Rng)
    (n : nat) (pred enc : Tensor R) (n' : nat) :
  AudioRegressor_forward m audio rng n = Some ((pred, enc), n') ->
  exists B e n1 out h ht,
    size audio 0 = Some B /\ AudioExtractor_forward (Extractor m) audio = Some e /\
    AEBlock1_forward (block m) e rng n = Some (enc, n1) /\
    GRU_forward (gru m) enc (zeros [2; B; 64]) rng n1 = Some ((out, h), n') /\
    select_last_dim1 out = Some ht /\ Linear_forward (fc m) ht = Some pred.
Proof.
  intros E. unfold AudioRegressor_forward in E.
  apply bind_inv in E as (B & k1 & E1 & E). apply lift_inv in E1 as (E1 & ->).
  apply bind_inv in E as (e & k2 & E2 & E). apply lift_inv in E2 as (E2 & ->).
  apply bind_inv in E as (enc' & n1 & E3 & E).
  apply bind_inv in E as ([out h] & n2 & E4 & E).
  apply bind_inv in E as (ht & k5 & E5 & E). apply lift_inv in E5 as (E5 & ->).
  apply bind_inv in E as (o & k6 & E6 & E). apply lift_inv in E6 as (E6 & ->).
  unfold ret in E. injection E. intros <- <- <-.
  exists B, e, n1, out, h, ht. repeat split; assumption.
Qed.

Lemma AEBlock1_forward_inv (blk : AEBlock1) (x : Tensor R) (rng : Rng) (n : nat)
    (y : Tensor R) (n' : nat) :
  AEBlock1_forward blk x rng n = Some (y, n') ->
  exists msk, padding_mask_audio x = Some msk /\ run_layers (AE1 blk) x msk rng n = Some (y, n').
Proof.
  intros E. unfold AEBlock1_forward in E.
  apply bind_inv in E as (msk & k & E1 & E). apply lift_inv in E1 as (E1 & ->).
  exists msk. split; assumption.
Qed.

(** ** Running the default model on [store_att] *)

Lemma myields_eq (c : M (Tensor R)) rng n n' s f y k :
  myields c rng n n' s f -> c rng n = Some (y, k) -> k = n' /\ shape y = s /\ forall i, get y i = f i.
Proof.
  intros (z & Ez & Sz & Gz) E. rewrite E in Ez. injection Ez. intros <- <-. auto.
Qed.

Lemma INR_767 : INR 767 = 767%R.
Proof. rewrite INR_IZR_INZ. reflexivity. Qed.

Lemma INR_768 : INR 768 = 768%R.
Proof. rewrite INR_IZR_INZ. reflexivity. Qed.

Lemma INR_512 : INR 512 = 512%R.
Proof. rewrite INR_IZR_INZ. reflexivity. Qed.

Lemma ln_var_nonneg (d : nat) (f : nat -> R) : (0 <= ln_var d f)%R.
Proof.
  unfold ln_var, Rdiv. destruct d as [|d].
  - cbn. rewrite Rinv_0, Rmult_0_r. lra.
  - apply Rmult_le_pos.
    + apply rsum_nonneg. intros j _. apply Rle_0_sqr.
    + left. apply Rinv_0_lt_compat, lt_0_INR. lia.
Qed.

Lemma att_layer_params (i r c : nat) :
  ln_weight (layerNorm2 (att_layer i)) r = (if i <? 5 then 0%R else 1%R) /\
  ln_bias (layerNorm2 (att_layer i)) r = (if i <? 5 then 1%R else 0%R) /\
  ln_weight (layerNorm1 (att_layer i)) r = 1%R /\ ln_bias (layerNorm1 (att_layer i)) r = 0%R /\
  ln_eps (layerNorm1 (att_layer i)) = (/ 100000)%R /\ ln_eps (layerNorm2 (att_layer i)) = (/ 100000)%R /\
  l_weight (fc1 (ffn (att_layer i))) r c = 0%R /\ optb (l_bias (fc1 (ffn (att_layer i)))) r = 0%R /\
  l_weight (fc2 (ffn (att_layer i))) r c = 0%R /\ optb (l_bias (fc2 (ffn (att_layer i)))) r = 0%R /\
  training (dropout1 (att_layer i)) = false /\ training (dropout2 (att_layer i)) = false /\
  training (ffn_dropout (ffn (att_layer i))) = false.
Proof. repeat split. Qed.

Lemma att_mha_params (k c : nat) :
  l_weight (V_fc (att_mha 5)) k c = (/ 768)%R /\
  l_weight (Out_fc (att_mha 5)) k c = (if k =? 0 then (/ 768)%R else 0%R).
Proof. split; reflexivity. Qed.

Lemma att_layer_mha (i : nat) (x : Tensor R) (mask : option (Tensor bool)) :
  MHA_forward (ae_MHA (att_layer i)) x x x mask = MHA_forward (att_mha i) x x x mask.
Proof. reflexivity. Qed.

Lemma div768 : 4 * (768 / 4) = 768.
Proof. reflexivity. Qed.

(** The first five layers output the constant 1. *)
Lemma att_layer_low (i : nat) (x : Tensor R) (mask : option (Tensor bool)) (rng : Rng) (n : nat) :
  i < 5 -> shape x = [1; 512; 768] ->
  match mask with Some mm => shape mm = [1; 1; 512] | None => True end ->
  exists y n', AELayer1_forward (att_layer i) x mask rng n = Some (y, n') /\
    shape y = [1; 512; 768] /\ forall idx, get y idx = 1%R.
Proof.
  intros Hi Hs HM.
  destruct (AELayer1_ok (att_layer i) 768 4 x mask rng n 1 512
              (layer_ok_eval store_att (sub [Nm "AEBlock1"%string] "AE1" ++ [Ix i]) 768 4 1536)
              div768 ltac:(lia) ltac:(lia) Hs HM)
    as (mo & d1 & s1 & o & f & d2 & s2 & y & n1 & n2 & n3 & _ & _ & _ & _ & _ & _ & _ & _ & _ &
        _ & _ & Ey & Ss2 & Sy & Ea).
  exists y, n3. split; [exact Ea|]. split; [exact Sy|]. intros idx.
  assert (Ss2' : shape s2 = [1; 512] ++ [normalized_dim (layerNorm2 (att_layer i))])
    by (rewrite Ss2; reflexivity).
  destruct (yields_eq _ y _ _ (LayerNorm_ok (layerNorm2 (att_layer i)) s2 [1; 512] Ss2') Ey)
    as (_ & Gy).
  rewrite Gy. cbv zeta.
  assert (W : forall r, ln_weight (layerNorm2 (att_layer i)) r = 0%R).
  { intros r. rewrite (proj1 (att_layer_params i r 0)). apply Nat.ltb_lt in Hi. rewrite Hi.
    reflexivity. }
  assert (Bi : forall r, ln_bias (layerNorm2 (att_layer i)) r = 1%R).
  { intros r. rewrite (proj1 (proj2 (att_layer_params i r 0))). apply Nat.ltb_lt in Hi.
    rewrite Hi. reflexivity. }
  rewrite W, Bi. ring.
Qed.

Lemma att_layer_top (x : Tensor R) (msk : Tensor bool) (rng : Rng) (n : nat) (kp : bool) :
  shape x = [1; 512; 768] -> (forall idx, get x idx = 1%R) -> shape msk = [1; 1; 512] ->
  (forall b z t, get msk [b; z; t] = false) -> (forall idx, rng n idx = kp) ->
  exists y n', AELayer1_forward (att_layer 5) x (Some msk) rng n = Some (y, n') /\
    (kp = false -> get y [0; 0; 0] = 0%R) /\ (kp = true -> Rlt 0 (get y [0; 0; 0])).
Proof.
  intros Hs Hx Sm Hm Hr.
  pose (c := if kp then (10 / 9)%R else 0%R).
  destruct (MHA_ok store_att (sub (sub [Nm "AEBlock1"%string] "AE1" ++ [Ix 5]) "MHA") 768 4
              (1 / 10)%R x (Some msk) rng n 1 512 div768 ltac:(lia) ltac:(lia) Hs Sm)
    as (Q3 & K3 & V3 & Qh & Kh & Vh & att & score & mo & EQ & SQ & EK & SK & EV & SV &
        GQ3 & GK3 & GV3 & GQKV & Esa & Satt & Emo & Smo & Gmo).
  change (768 / 4) with 192 in *.
  change (MHA_init store_att (sub (sub [Nm "AEBlock1"%string] "AE1" ++ [Ix 5]) "MHA") 768 4 (1 / 10)%R)
    with (att_mha 5) in *.
  destruct (Self_Attention_ok Qh Kh Vh (Some msk) rng n 1 4 512 512 192 192 SQ SK SV Sm)
    as (att' & score' & Esa' & _ & _ & Gsc & Gatt).
  rewrite Esa in Esa'. injection Esa'. intros E1 E2. subst att' score'.
  assert (HV3 : forall b t k, get V3 [b; t; k] = 1%R).
  { intros b t k. rewrite GV3.
    rewrite (rsum_ext 768 _ (fun _ => (/ 768)%R)).
    - rewrite rsum_const, INR_768. field.
    - intros i _. rewrite (proj1 (att_mha_params k i)), Hx. ring. }
  assert (HV : forall b h t d, b < 1 -> h < 4 -> t < 512 -> d < 192 -> get Vh [b; h; t; d] = 1%R).
  { intros b h t d Hb Hh Ht Hd. destruct (GQKV b h t d Hb Hh Ht Hd) as (_ & _ & ->). apply HV3. }
  assert (Hlg : forall b hh i j, sa_logit Qh Kh 192 (Some msk) b hh i j = (- 1000000000)%R).
  { intros. unfold sa_logit. rewrite Hm. reflexivity. }
  pose (sc := if kp then (/ 512 / (1 - 1 / 10))%R else 0%R).
  assert (Hsc : forall b hh i j, b < 1 -> j < 512 -> get score [b; hh; i; j] = sc).
  { intros b hh i j Hb Hj. rewrite Gsc by assumption. rewrite Hr, Hlg.
    rewrite (rsum_ext 512 _ (fun _ => exp (- 1000000000))) by (intros; rewrite Hlg; reflexivity).
    rewrite rsum_const, INR_512. unfold sc. destruct kp; [|reflexivity].
    pose proof (exp_pos (- 1000000000)). field. lra. }
  assert (Hatt : forall b hh t d, b < 1 -> hh < 4 -> d < 192 -> get att [b; hh; t; d] = c).
  { intros b hh t d Hb Hh Hd. rewrite Gatt.
    rewrite (rsum_ext 512 _ (fun _ => sc)) by (intros j Hj; rewrite Hsc, HV by assumption; ring).
    rewrite rsum_const, INR_512. unfold sc, c. destruct kp; field. }
  assert (Hmo : forall t k, t < 512 -> k < 768 -> get mo [0; t; k] = if k =? 0 then c else 0%R).
  { intros t k Ht Hk. rewrite Gmo by lia.
    rewrite (rsum_ext 768 _ (fun _ => ((if k =? 0 then / 768 else 0) * c)%R)).
    - rewrite rsum_const, INR_768. destruct (k =? 0); field.
    - intros i Hi. rewrite (proj2 (att_mha_params k i)). rewrite Hatt; [reflexivity|lia| |].
      + apply Nat.Div0.div_lt_upper_bound. lia.
      + apply Nat.mod_upper_bound. lia. }
  destruct (AELayer1_ok (att_layer 5) 768 4 x (Some msk) rng n 1 512
              (layer_ok_eval store_att (sub [Nm "AEBlock1"%string] "AE1" ++ [Ix 5]) 768 4 1536)
              div768 ltac:(lia) ltac:(lia) Hs Sm)
    as (mo' & d1 & s1 & o & f & d2 & s2 & y & n1 & n2 & n3 & Emo' & _ & Ed1 & Es1 & Eo & Ss1 &
        So & Ef & _ & Ed2 & Es2 & Ey & Ss2 & _ & Ea).
  rewrite att_layer_mha, Emo in Emo'. injection Emo'. intros <-.
  assert (E1 : Dropout_forward (dropout1 (att_layer 5)) mo rng (S n) = Some (mo, S n))
    by reflexivity.
  rewrite E1 in Ed1. injection Ed1. intros <- <-.
  destruct (yields_eq _ s1 _ _ (add_ok x mo ltac:(congruence)) Es1) as (_ & Gs1).
  assert (Ss1' : shape s1 = [1; 512] ++ [normalized_dim (layerNorm1 (att_layer 5))])
    by (rewrite Ss1; reflexivity).
  destruct (yields_eq _ o _ _ (LayerNorm_ok (layerNorm1 (att_layer 5)) s1 [1; 512] Ss1') Eo)
    as (_ & Go).
  assert (So' : shape o = [1; 512] ++ [768]) by exact So.
  destruct (FFN_ok (ffn (att_layer 5)) o [1; 512] 768 rng (S n) eq_refl eq_refl eq_refl So')
    as (h1 & dd & h2 & z & nf & Eh1 & Sh1 & Edd & Eh2 & Sh2 & Ez & _ & Ef').
  rewrite Ef in Ef'. injection Ef'. intros <- <-.
  assert (E2 : Dropout_forward (ffn_dropout (ffn (att_layer 5))) (relu h1) rng (S n)
               = Some (relu h1, S n)) by reflexivity.
  rewrite E2 in Edd. injection Edd. intros <- <-.
  assert (Sdd : shape (relu h1) = [1; 512] ++ [in_features (fc2 (ffn (att_layer 5)))])
    by (cbn [relu tmap shape]; rewrite Sh1; reflexivity).
  destruct (yields_eq _ h2 _ _ (Linear_ok (fc2 (ffn (att_layer 5))) (relu h1) [1; 512] Sdd) Eh2)
    as (_ & Gh2).
  destruct (yields_eq _ f _ _ (add_ok h2 o ltac:(rewrite Sh2, So; reflexivity)) Ez) as (Sf & Gf).
  assert (E3 : Dropout_forward (dropout2 (att_layer 5)) f rng (S n) = Some (f, S n))
    by reflexivity.
  rewrite E3 in Ed2. injection Ed2. intros <- <-.
  destruct (yields_eq _ s2 _ _ (add_ok o f ltac:(rewrite Sf, Sh2, So; reflexivity)) Es2) as (_ & Gs2).
  assert (Ss2' : shape s2 = [1; 512] ++ [normalized_dim (layerNorm2 (att_layer 5))])
    by (rewrite Ss2; reflexivity).
  destruct (yields_eq _ y _ _ (LayerNorm_ok (layerNorm2 (att_layer 5)) s2 [1; 512] Ss2') Ey)
    as (_ & Gy).
  exists y, (S n). split; [exact Ea|].
  destruct (att_layer_params 5 0 0) as (_ & _ & _ & _ & Ep1 & Ep2 & _).
  assert (W1 : forall r, ln_weight (layerNorm1 (att_layer 5)) r = 1%R)
    by (intros r; apply (att_layer_params 5 r 0)).
  assert (B1 : forall r, ln_bias (layerNorm1 (att_layer 5)) r = 0%R)
    by (intros r; apply (att_layer_params 5 r 0)).
  assert (W2 : forall r, ln_weight (layerNorm2 (att_layer 5)) r = 1%R)
    by (intros r; apply (att_layer_params 5 r 0)).
  assert (B2 : forall r, ln_bias (layerNorm2 (att_layer 5)) r = 0%R)
    by (intros r; apply (att_layer_params 5 r 0)).
  assert (Wf : forall r c', l_weight (fc2 (ffn (att_layer 5))) r c' = 0%R)
    by (intros r c'; apply (att_layer_params 5 r c')).
  assert (Bf : forall r, optb (l_bias (fc2 (ffn (att_layer 5)))) r = 0%R)
    by (intros r; apply (att_layer_params 5 r 0)).
  change (normalized_dim (layerNorm1 (att_layer 5))) with 768 in Go.
  change (normalized_dim (layerNorm2 (att_layer 5))) with 768 in Gy.
  rewrite Ep1 in Go. rewrite Ep2 in Gy.
  set (row1 := fun j => get s1 [0; 0; j]).
  assert (R1 : forall j, j < 768 -> row1 j = if j =? 0 then (1 + c)%R else 1%R).
  { intros j Hj. unfold row1. rewrite Gs1, Hx, Hmo by lia. destruct (j =? 0); ring. }
  set (mu1 := ln_mean 768 row1).
  assert (Hmu1 : mu1 = ((768 + c) / 768)%R).
  { unfold mu1, ln_mean. rewrite (rsum_first 767 (1 + c) 1 row1 R1), INR_767, INR_768. field. }
  set (sd1 := sqrt (ln_var 768 row1 + / 100000)).
  assert (Hsd1 : (0 < sd1)%R).
  { apply sqrt_lt_R0. pose proof (ln_var_nonneg 768 row1). lra. }
  assert (Ho : forall j, j < 768 ->
            get o [0; 0; j] = (((if j =? 0 then 1 + c else 1) - mu1) / sd1)%R).
  { intros j Hj. rewrite Go. cbv zeta. cbn [Datatypes.length nth replace_at firstn skipn app].
    rewrite W1, B1. fold row1. fold mu1. fold sd1. rewrite <- R1 by exact Hj. unfold row1.
    ring. }
  assert (Hf : forall i, get f i = get o i).
  { intros i. rewrite Gf, Gh2, Bf, rsum_zero; [ring|]. intros j _. rewrite Wf. ring. }
  set (row2 := fun j => get s2 [0; 0; j]).
  set (A := (2 * ((1 + c) - mu1) / sd1)%R).
  set (Bv := (2 * (1 - mu1) / sd1)%R).
  assert (R2 : forall j, j < 768 -> row2 j = if j =? 0 then A else Bv).
  { intros j Hj. unfold row2. rewrite Gs2, Hf, Ho by exact Hj. unfold A, Bv.
    destruct (j =? 0); unfold Rdiv; ring. }
  set (mu2 := ln_mean 768 row2).
  assert (Hmu2 : mu2 = 0%R).
  { unfold mu2, ln_mean. rewrite (rsum_first 767 A Bv row2 R2), INR_767, INR_768.
    unfold A, Bv. rewrite Hmu1. field. lra. }
  set (sd2 := sqrt (ln_var 768 row2 + / 100000)).
  assert (Hsd2 : (0 < sd2)%R).
  { apply sqrt_lt_R0. pose proof (ln_var_nonneg 768 row2). lra. }
  assert (Hy0 : get y [0; 0; 0] = (A / sd2)%R).
  { rewrite Gy. cbv zeta. cbn [Datatypes.length nth replace_at firstn skipn app].
    rewrite W2, B2. fold row2. fold mu2. fold sd2.
    change (get s2 [0; 0; 0]) with (row2 0). rewrite R2 by lia. cbn [Nat.eqb].
    rewrite Hmu2. unfold Rdiv. ring. }
  rewrite Hy0. unfold A. rewrite Hmu1. split; intros Hk; subst c; rewrite Hk.
  - field. lra.
  - replace (2 * (1 + 10 / 9 - (768 + 10 / 9) / 768) / sd1 / sd2)%R
      with (2 * (767 / 768 * (10 / 9)) * / sd1 * / sd2)%R by (field; lra).
    apply Rmult_lt_0_compat; [apply Rmult_lt_0_compat|]; try (apply Rinv_0_lt_compat; lra).
    lra.
Qed.

Lemma att_run_low (is : list nat) (rest : list AELayer1) (x : Tensor R) (msk : Tensor bool)
    (rng : Rng) (n : nat) :
  Forall (fun i => i < 5) is -> shape x = [1; 512; 768] -> (forall idx, get x idx = 1%R) ->
  shape msk = [1; 1; 512] ->
  exists x' n', run_layers (map att_layer is ++ rest) x msk rng n = run_layers rest x' msk rng n' /\
    shape x' = [1; 512; 768] /\ forall idx, get x' idx = 1%R.
Proof.
  intros Hall. revert x n. induction Hall as [|i is Hi Hall IH]; intros x n Hs Hx Sm.
  - exists x, n. split; [reflexivity|]. split; assumption.
  - destruct (att_layer_low i x (Some msk) rng n Hi Hs Sm) as (y & n1 & Ey & Sy & Gy).
    cbn [map app run_layers]. mstep Ey. exact (IH y n1 Sy Gy Sm).
Qed.

Lemma att_block (e : Tensor R) (rng : Rng) (n : nat) (kp : bool) :
  shape e = [1; 512; 768] -> (forall i, get e i = 0%R) -> (forall k idx, rng k idx = kp) ->
  exists y n', AEBlock1_forward (block (AudioRegressor_eval (AudioRegressor_default store_att))) e rng n
                 = Some (y, n') /\
    (kp = false -> get y [0; 0; 0] = 0%R) /\ (kp = true -> Rlt 0 (get y [0; 0; 0])).
Proof.
  intros Hs He Hr.
  destruct (padding_mask_ok e 1 512 768 Hs) as (msk & Em & Sm & Gm).
  assert (Hm : forall b z t, get msk [b; z; t] = false).
  { intros b z t. rewrite Gm. change (seq 0 768) with (0 :: seq 1 767). cbn [forallb].
    rewrite He. destruct (Req_dec_T 0 0) as [_|C]; [reflexivity|contradiction]. }
  unfold AEBlock1_forward. lstep Em.
  change (AE1 (block (AudioRegressor_eval (AudioRegressor_default store_att))))
    with (att_layer 0 :: (map att_layer [1; 2; 3; 4] ++ [att_layer 5])).
  destruct (att_layer_low 0 e (Some msk) rng n ltac:(lia) Hs Sm) as (y0 & n0 & E0 & S0 & G0).
  cbn [run_layers]. mstep E0.
  destruct (att_run_low [1; 2; 3; 4] [att_layer 5] y0 msk rng n0
              ltac:(repeat constructor) S0 G0 Sm) as (x' & n' & Er & Sx & Gx).
  rewrite Er.
  destruct (att_layer_top x' msk rng n' kp Sx Gx Sm Hm (Hr n')) as (y & n'' & Ey & P).
  cbn [run_layers]. mstep Ey. exists y, n''. split; [reflexivity|exact P].
Qed.

Lemma att_forward (rng : Rng) (kp : bool) :
  (forall k idx, rng k idx = kp) ->
  exists pred enc n2,
    AudioRegressor_forward (AudioRegressor_eval (AudioRegressor_default store_att))
      (zeros [1; 2; 512; 128]) rng 0 = Some ((pred, enc), n2) /\
    (kp = false -> get enc [0; 0; 0] = 0%R) /\ (kp = true -> Rlt 0 (get enc [0; 0; 0])).
Proof.
  intros Hr.
  destruct (AudioRegressor_ok store_att 4 1536 6 true (zeros [1; 2; 512; 128]) rng 0 1
              div768 ltac:(lia) eq_refl)
    as (e & enc & n1 & nxt & out & h & ht & pred & n2 & Ee & Se & Eenc &
        _ & _ & _ & _ & _ & _ & _ & _ & _ & _ & _ & _ & Ef).
  destruct (AudioExtractor_ok store_att [Nm "Extractor"%string] (zeros [1; 2; 512; 128]) 1
              eq_refl ltac:(lia))
    as (x1 & x2 & x3 & x4 & e' & _ & _ & _ & _ & _ & _ & _ & _ & Ee' & _ & _ & Z).
  change (Extractor (model_in_mode true (AudioRegressor_init store_att 768 4 1536 6)))
    with (AudioExtractor_init store_att [Nm "Extractor"%string]) in Ee.
  rewrite Ee in Ee'. injection Ee'. intros <-.
  assert (He : forall i, get e i = 0%R) by (apply Z; intros i; reflexivity).
  destruct (att_block e rng 0 kp Se He Hr) as (y & n' & Ey & P).
  change (block (model_in_mode true (AudioRegressor_init store_att 768 4 1536 6)))
    with (block (AudioRegressor_eval (AudioRegressor_default store_att))) in Eenc.
  rewrite Eenc in Ey. injection Ey. intros _ <-.
  exists pred, enc, n2. split; [exact Ef|exact P].
Qed.

(** * The claims *)

(** C1 (as stated: for every input of shape [[B, 2, 512, 128]]).  With a
    batch of size 0 the forward pass raises: the extractor's
    [reshape([0, 512, -1])] of a tensor with no element cannot infer the
    [-1]. *)
Lemma C1_batch0_fails :
  AudioRegressor_forward (AudioRegressor_default store0) (zeros [0; 2; 512; 128]) keep_all 0
  = None.
Proof. vm_compute. reflexivity. Qed.

(** C1 (amended: for a batch of size [B >= 1]).  For every audio input of
    shape [[B, 2, 512, 128]] with [B >= 1], the forward pass of
    [AudioRegressor] (any weights, any [num_head] dividing 768, before or
    after [model.eval()]) returns a pair whose first element has shape
    [[B, 1]]: it is the output of the final [Linear(64, 1)] on its [[B, 64]]
    input, [pred[b][0] = bias + sum_k w[0][k] * h[b][k]], with no
    activation applied after it. *)
Theorem C1_forward_shape (st : Store) (H inner nl : nat) (ev : bool) (audio : Tensor R)
    (rng : Rng) (n B : nat) :
  H * (768 / H) = 768 -> 1 <= B -> shape audio = [B; 2; 512; 128] ->
  let m := model_in_mode ev (AudioRegressor_init st 768 H inner nl) in
  in_features (fc m) = 64 /\ out_features (fc m) = 1 /\
  exists pred enc n' ht,
    AudioRegressor_forward m audio rng n = Some ((pred, enc), n') /\
    shape pred = [B; 1] /\
    Linear_forward (fc m) ht = Some pred /\ shape ht = [B; 64] /\
    forall b, get pred [b; 0] =
      (rsum 64 (fun k => l_weight (fc m) 0 k * get ht [b; k]) + optb (l_bias (fc m)) 0)%R.
Proof.
  intros Hdiv HB Ha m.
  destruct (AudioRegressor_ok st H inner nl ev audio rng n B Hdiv HB Ha)
    as (e & enc & n1 & nxt & out & h & ht & pred & n2 & _ & _ & _ & _ & _ & _ & _ & _ & _ &
        _ & Sht & _ & Ep & Sp & Gp & Ef).
  fold m in Ep, Gp, Ef.
  assert (Hfc : fc m = nn_Linear st [Nm "fc"] 64 1 true) by (destruct ev; reflexivity).
  split; [rewrite Hfc; reflexivity|]. split; [rewrite Hfc; reflexivity|].
  exists pred, enc, n2, ht. repeat split; assumption.
Qed.

Lemma C1_forward_shape_witness :
  exists pred enc n',
    AudioRegressor_forward (model_in_mode true (AudioRegressor_default store0))
      (zeros [1; 2; 512; 128]) keep_all 0 = Some ((pred, enc), n') /\ shape pred = [1; 1].
Proof.
  destruct (C1_forward_shape store0 4 1536 6 true (zeros [1; 2; 512; 128]) keep_all 0 1
              ltac:(vm_compute; reflexivity) ltac:(lia) eq_refl)
    as (_ & _ & pred & enc & n' & ht & E & S & _).
  exists pred, enc, n'. split; [exact E|exact S].
Defined.

(** C2.  The forward pass of any [AudioRegressor] succeeds with [(pred,
    enc)] exactly when, in this order and with nothing else, the
    extractor maps the audio to [e], the encoder [AEBlock1] maps [e] to
    [enc], the GRU run on [enc] from [zeros(2, B, 64)] gives [out], the
    last time step of [out] is taken and the final linear layer gives
    [pred]; the second element returned is that [enc], the GRU's input. *)
Theorem C2_pipeline (m : AudioRegressor) (audio : Tensor R) (rng : Rng) (n : nat)
    (pred enc : Tensor R) (n' : nat) :
  AudioRegressor_forward m audio rng n = Some ((pred, enc), n') <->
  exists B e n1 out h ht,
    size audio 0 = Some B /\ AudioExtractor_forward (Extractor m) audio = Some e /\
    AEBlock1_forward (block m) e rng n = Some (enc, n1) /\
    GRU_forward (gru m) enc (zeros [2; B; 64]) rng n1 = Some ((out, h), n') /\
    select_last_dim1 out = Some ht /\ Linear_forward (fc m) ht = Some pred.
Proof.
  split.
  - apply AudioRegressor_forward_inv.
  - intros (B & e & n1 & out & h & ht & E1 & E2 & E3 & E4 & E5 & E6).
    unfold AudioRegressor_forward. lstep E1. lstep E2. mstep E3. mstep E4. lstep E5. lstep E6.
    reflexivity.
Qed.

(** C3.  [Self_Attention(Q, K, V, mask)] returns [(att_value, score)]
    where [score] is the dropout (a fresh [nn.Dropout(0.1)], in training
    mode: kept entries are divided by [0.9]) of the softmax over the last
    dimension of [Q K^T / sqrt d], [d] the last dimension of [Q], key
    positions [j] whose mask entry is [False] being set to [-1e9] before the
    softmax; and [att_value = score V].  In [MHA] the [Q] passed to it is
    the head split of [Q_fc(x)], whose last dimension is
    [head_dim = hidden_dim // num_head]. *)
Theorem C3_self_attention (Q K V : Tensor R) (mask : option (Tensor bool)) (rng : Rng)
    (n a h L S d e : nat) :
  shape Q = [a; h; L; d] -> shape K = [a; h; S; d] -> shape V = [a; h; S; e] ->
  match mask with Some mm => shape mm = [a; 1; S] | None => True end ->
  (exists att score,
    Self_Attention Q K V mask rng n = Some ((att, score), Datatypes.S n) /\
    shape att = [a; h; L; e] /\ shape score = [a; h; L; S] /\
    (forall b hh i j, b < a -> j < S ->
       let logit j' :=
         match mask with
         | Some mm => if get mm [b; 0; j'] then sa_raw Q K (last (shape Q) 0) b hh i j'
                      else (- 1000000000)%R
         | None => sa_raw Q K (last (shape Q) 0) b hh i j'
         end in
       get score [b; hh; i; j] =
       if rng n [b; hh; i; j] then
         (exp (logit j) / rsum S (fun j' => exp (logit j')) / (1 - 1 / 10))%R
       else 0%R) /\
    (forall b hh i k,
       get att [b; hh; i; k] = rsum S (fun j => (get score [b; hh; i; j] * get V [b; hh; j; k])%R))) /\
  (forall (st : Store) (p : list seg) (hid H : nat) (dr : R) (x : Tensor R)
          (mask' : option (Tensor bool)) (B T : nat),
     let m := MHA_init st p hid H dr in
     H * (hid / H) = hid -> 1 <= B -> 0 < hid -> shape x = [B; T; hid] ->
     match mask' with Some mm => shape mm = [B; 1; T] | None => True end ->
     head_dim m = hid / H /\
     exists Qh Kh Vh att score y,
       heads m (Q_fc m) B x = Some Qh /\ heads m (K_fc m) B x = Some Kh /\
       heads m (V_fc m) B x = Some Vh /\ last (shape Qh) 0 = hid / H /\
       Self_Attention Qh Kh Vh mask' rng n = Some ((att, score), Datatypes.S n) /\
       MHA_forward m x x x mask' rng n = Some (y, Datatypes.S n)).
Proof.
  intros HQ HK HV HM. split.
  - destruct (Self_Attention_ok Q K V mask rng n a h L S d e HQ HK HV HM)
      as (att & score & E & Sa & Ss & Gs & Ga).
    exists att, score. split; [exact E|]. split; [exact Sa|]. split; [exact Ss|].
    split; [|exact Ga].
    intros b hh i j Hb Hj. cbv zeta. rewrite Gs by assumption. rewrite HQ. cbn [last].
    reflexivity.
  - intros st p hid H dr x mask' B T m Hdiv HB Hpos Hs HM'.
    split; [reflexivity|].
    destruct (MHA_ok st p hid H dr x mask' rng n B T Hdiv HB Hpos Hs HM')
      as (Q3 & K3 & V3 & Qh & Kh & Vh & att & score & y & EQ & SQ & EK & SK & EV & SV &
          _ & _ & _ & _ & Esa & _ & Ey & _ & _).
    exists Qh, Kh, Vh, att, score, y.
    split; [exact EQ|]. split; [exact EK|]. split; [exact EV|].
    split; [rewrite SQ; reflexivity|]. split; [exact Esa|exact Ey].
Qed.

Lemma C3_self_attention_witness :
  shape sa_Q = [1; 1; 2; 2] /\ shape sa_K = [1; 1; 3; 2] /\ shape sa_V = [1; 1; 3; 2] /\
  shape sa_mask = [1; 1; 3] /\
  exists att score,
    Self_Attention sa_Q sa_K sa_V (Some sa_mask) sa_rng 0 = Some ((att, score), 1) /\
    shape att = [1; 1; 2; 2] /\ shape score = [1; 1; 2; 3] /\
    (forall b hh i j, b < 1 -> j < 3 ->
       let logit j' :=
         if get sa_mask [b; 0; j'] then sa_raw sa_Q sa_K (last (shape sa_Q) 0) b hh i j'
         else (- 1000000000)%R in
       get score [b; hh; i; j] =
       if sa_rng 0 [b; hh; i; j] then
         (exp (logit j) / rsum 3 (fun j' => exp (logit j')) / (1 - 1 / 10))%R
       else 0%R) /\
    (forall b hh i k,
       get att [b; hh; i; k] = rsum 3 (fun j => (get score [b; hh; i; j] * get sa_V [b; hh; j; k])%R)).
Proof.
  split; [reflexivity|]. split; [reflexivity|]. split; [reflexivity|]. split; [reflexivity|].
  exact (proj1 (C3_self_attention sa_Q sa_K sa_V (Some sa_mask) sa_rng 0 1 1 2 3 2 2
                  eq_refl eq_refl eq_refl eq_refl)).
Defined.

(** C4.  The recurrent decoder is [nn.GRU] with two layers,
    [batch_first=True], no biases and hidden size 64.  On every input of
    shape [[B, 2, 512, 128]] ([B >= 1]) the forward pass runs it from the
    zero state and its prediction is the final linear layer applied to the
    last time step only: [pred[b][0] = bias + sum_k w[0][k] * s_T[k]], where
    [s_T] is the state of the top layer after folding the GRU cell over all
    [T = 512] inputs of that layer from the zero state.  The inputs of the
    top layer are the outputs of the bottom layer, a fold of the cell over
    the encoder output from the zero state: unchanged after [model.eval()],
    and in training mode passed through the inter-layer dropout (one draw
    [k]: an entry is kept and divided by [0.9], or set to 0). *)
Theorem C4_gru_decoder (st : Store) (H inner nl : nat) (ev : bool) (audio : Tensor R)
    (rng : Rng) (n B : nat) :
  let m := model_in_mode ev (AudioRegressor_init st 768 H inner nl) in
  g_num_layers (gru m) = 2 /\ g_batch_first (gru m) = true /\ g_bias (gru m) = false /\
  b_ih (gru m) = None /\ b_hh (gru m) = None /\ g_hidden_size (gru m) = 64 /\
  (H * (768 / H) = 768 -> 1 <= B -> shape audio = [B; 2; 512; 128] ->
   exists pred enc n' nxt k,
     AudioRegressor_forward m audio rng n = Some ((pred, enc), n') /\
     shape enc = [B; 512; 768] /\ shape nxt = [B; 512; 64] /\
     (forall b, get pred [b; 0] =
        (rsum 64 (fun k => l_weight (fc m) 0 k *
            gru_state (gru m) 1 64 (fun t i => get nxt [b; t; i]) (fun _ => 0%R) 512 k)
         + optb (l_bias (fc m)) 0)%R) /\
     (forall b t i, get nxt [b; t; i] =
        let s := gru_state (gru m) 0 768 (fun t i => get enc [b; t; i]) (fun _ => 0%R) (S t) i in
        if ev then s else if rng k [b; t; i] then (s / (1 - 1 / 10))%R else 0%R)).
Proof.
  intros m.
  assert (Hg : g_num_layers (gru m) = 2 /\ g_batch_first (gru m) = true /\
               g_bias (gru m) = false /\ b_ih (gru m) = None /\ b_hh (gru m) = None /\
               g_hidden_size (gru m) = 64 /\ g_input_size (gru m) = 768)
    by (destruct ev; repeat split).
  destruct Hg as (G1 & G2 & G3 & G4 & G5 & G6 & G7).
  do 6 (split; [assumption|]).
  intros Hdiv HB Ha.
  destruct (AudioRegressor_ok st H inner nl ev audio rng n B Hdiv HB Ha)
    as (e & enc & n1 & nxt & out & h & ht & pred & n2 & _ & _ & _ & Senc & Snxt & Tnxt & _ &
        _ & Gout & _ & _ & Ght & _ & _ & Gp & Ef).
  fold m in Tnxt, Gout, Gp, Ef.
  exists pred, enc, n2, nxt, n1. split; [exact Ef|]. split; [exact Senc|]. split; [exact Snxt|].
  split.
  - intros b. rewrite Gp. f_equal. apply rsum_ext. intros k _. rewrite Ght, Gout. reflexivity.
  - intros b t i. cbv zeta.
    destruct (bool_dec ev true) as [Hev|Hev].
    + rewrite Hev. destruct (proj1 Tnxt Hev) as (-> & _). unfold gru_layer0. cbn [get nth].
      rewrite G7. reflexivity.
    + apply not_true_is_false in Hev. rewrite Hev.
      destruct (proj2 Tnxt Hev) as (_ & ->). unfold gru_layer0. cbn [get nth].
      rewrite G7. reflexivity.
Qed.

Lemma C4_gru_decoder_witness :
  exists pred enc n' (nxt : Tensor R),
    AudioRegressor_forward (model_in_mode true (AudioRegressor_default store0))
      (zeros [1; 2; 512; 128]) keep_all 0 = Some ((pred, enc), n') /\ shape nxt = [1; 512; 64].
Proof.
  destruct (C4_gru_decoder store0 4 1536 6 true (zeros [1; 2; 512; 128]) keep_all 0 1)
    as (_ & _ & _ & _ & _ & _ & Hrun).
  destruct (Hrun ltac:(vm_compute; reflexivity) ltac:(lia) eq_refl)
    as (pred & enc & n' & nxt & k & E & _ & S & _).
  exists pred, enc, n', nxt. split; [exact E|exact S].
Defined.

(** C5 (as stated: any input of shape [[B, L, 768]]).  With [B = 0] an
    encoder layer raises: [MHA]'s [view(0, -1, num_head, head_dim)] of a
    tensor with no element cannot infer the [-1]; so does the block. *)
Lemma C5_batch0_fails :
  AELayer1_forward (AELayer1_init store0 [] 768 4 1536) (zeros [0; 512; 768])
    (Some (mkT [0; 1; 512] (fun _ => true))) keep_all 0 = None /\
  AEBlock1_forward (AEBlock1_init store0 [Nm "AEBlock1"] 768 4 1536 6) (zeros [0; 512; 768])
    keep_all 0 = None.
Proof. split; vm_compute; reflexivity. Qed.

(** C5 (amended: for a batch of size [B >= 1]).  Every encoder layer of
    the model's [AEBlock1] (any weights, any [num_head] dividing 768, before
    or after [model.eval()]) maps an input of shape [[B, L, 768]] with
    [B >= 1] to an output of the same shape through the post-norm structure
    [o = LN1(x + drop1(MHA(x, x, x, mask)))],
    [f = fc2(drop(relu(fc1(o)))) + o], [y = LN2(o + drop2(f))]; and the
    block computes the padding mask once from its input and runs its
    [n_layers] layers in sequence, each with that same mask, the result
    having shape [[B, L, 768]]. *)
Theorem C5_encoder_shape (st : Store) (H inner nl : nat) (ev : bool) (x : Tensor R)
    (rng : Rng) (n B L : nat) :
  H * (768 / H) = 768 -> 1 <= B -> shape x = [B; L; 768] ->
  let blk := block (model_in_mode ev (AudioRegressor_init st 768 H inner nl)) in
  length (AE1 blk) = nl /\
  (forall (a : AELayer1) (mask : option (Tensor bool)), In a (AE1 blk) ->
     match mask with Some mm => shape mm = [B; 1; L] | None => True end ->
     exists mo d1 s1 o h1 dd h2 f d2 s2 y n1 n2 n3,
       MHA_forward (ae_MHA a) x x x mask rng n = Some (mo, S n) /\
       Dropout_forward (dropout1 a) mo rng (S n) = Some (d1, n1) /\
       add x d1 = Some s1 /\ LayerNorm_forward (layerNorm1 a) s1 = Some o /\
       Linear_forward (fc1 (ffn a)) o = Some h1 /\
       Dropout_forward (ffn_dropout (ffn a)) (relu h1) rng n1 = Some (dd, n2) /\
       Linear_forward (fc2 (ffn a)) dd = Some h2 /\ add h2 o = Some f /\
       Dropout_forward (dropout2 a) f rng n2 = Some (d2, n3) /\
       add o d2 = Some s2 /\ LayerNorm_forward (layerNorm2 a) s2 = Some y /\
       AELayer1_forward a x mask rng n = Some (y, n3) /\ shape y = [B; L; 768]) /\
  (exists msk y n',
     padding_mask_audio x = Some msk /\ shape msk = [B; 1; L] /\
     run_layers (AE1 blk) x msk rng n = Some (y, n') /\
     AEBlock1_forward blk x rng n = Some (y, n') /\ shape y = [B; L; 768]).
Proof.
  intros Hdiv HB Hs blk.
  destruct (model_in_mode_parts st H inner nl ev) as (_ & Hall & _). fold blk in Hall.
  split; [unfold blk; destruct ev; cbn; rewrite ?length_map, length_seq; reflexivity|].
  split.
  - intros a mask Ha HM.
    assert (Hl : layer_ok a 768 H) by (rewrite Forall_forall in Hall; apply Hall, Ha).
    destruct (AELayer1_ok a 768 H x mask rng n B L Hl Hdiv HB ltac:(lia) Hs HM)
      as (mo & d1 & s1 & o & f & d2 & s2 & y & n1 & n2 & n3 & Emo & _ & Ed1 & Es1 & Eo & _ &
          So & Ef & _ & Ed2 & Es2 & Ey & _ & Sy & Ea).
    destruct Hl as (_ & _ & _ & Hf1 & Hf2 & Hf3).
    assert (So' : shape o = [B; L] ++ [768]) by exact So.
    destruct (FFN_ok (ffn a) o [B; L] 768 rng n1 Hf1 Hf2 Hf3 So')
      as (h1 & dd & h2 & z & n2' & Eh1 & _ & Edd & Eh2 & _ & Ez & _ & Ef').
    rewrite Ef in Ef'. injection Ef'. intros <- <-.
    exists mo, d1, s1, o, h1, dd, h2, f, d2, s2, y, n1, n2, n3.
    repeat split; assumption.
  - apply (AEBlock1_ok blk 768 H x rng n B L Hall Hdiv HB ltac:(lia) Hs).
Qed.

Lemma C5_encoder_shape_witness :
  exists (msk : Tensor bool) (y : Tensor R) n',
    AEBlock1_forward (block (model_in_mode false (AudioRegressor_default store0)))
      (zeros [1; 512; 768]) keep_all 0 = Some (y, n') /\ shape y = [1; 512; 768].
Proof.
  destruct (C5_encoder_shape store0 4 1536 6 false (zeros [1; 512; 768]) keep_all 0 1 512
              ltac:(vm_compute; reflexivity) ltac:(lia) eq_refl)
    as (_ & _ & msk & y & n' & _ & _ & _ & E & S).
  exists msk, y, n'. split; [exact E|exact S].
Defined.

(** C7 (as stated: every input of shape [[B, 2, 512, 128]]).  With
    [B = 0] the final [reshape([0, 512, -1])] of a tensor with no element
    raises. *)
Lemma C7_batch0_fails :
  AudioExtractor_forward (AudioExtractor_init store0 [Nm "Extractor"]) (zeros [0; 2; 512; 128])
  = None.
Proof. vm_compute. reflexivity. Qed.

(** C7 (amended: for a batch of size [B >= 1]).  The four convolutions
    have time-kernel length 1, time-stride 1 and no time padding, and
    channels 2 -> 8 -> 8 -> 24 -> 24; for every input of shape
    [[B, 2, 512, 128]] with [B >= 1] their outputs have shapes
    [[B, 8, 512, 64]], [[B, 8, 512, 64]], [[B, 24, 512, 32]],
    [[B, 24, 512, 32]], and the extractor returns a tensor of shape
    [[B, 512, 768]] whose feature [k] at time [t] is channel [k / 32],
    frequency [k mod 32] of the last convolution at time [t]. *)
Theorem C7_extractor_shape (st : Store) (p : list seg) (x : Tensor R) (B : nat) :
  shape x = [B; 2; 512; 128] -> 1 <= B ->
  let m := AudioExtractor_init st p in
  map kh [conv1 m; conv2 m; conv3 m; conv4 m] = [1; 1; 1; 1] /\
  map sh [conv1 m; conv2 m; conv3 m; conv4 m] = [1; 1; 1; 1] /\
  map ph [conv1 m; conv2 m; conv3 m; conv4 m] = [0; 0; 0; 0] /\
  map in_channels [conv1 m; conv2 m; conv3 m; conv4 m] = [2; 8; 8; 24] /\
  map out_channels [conv1 m; conv2 m; conv3 m; conv4 m] = [8; 8; 24; 24] /\
  exists x1 x2 x3 x4 y,
    Conv2d_forward (conv1 m) x = Some x1 /\ shape x1 = [B; 8; 512; 64] /\
    Conv2d_forward (conv2 m) (relu x1) = Some x2 /\ shape x2 = [B; 8; 512; 64] /\
    Conv2d_forward (conv3 m) (relu x2) = Some x3 /\ shape x3 = [B; 24; 512; 32] /\
    Conv2d_forward (conv4 m) (relu x3) = Some x4 /\ shape x4 = [B; 24; 512; 32] /\
    AudioExtractor_forward m x = Some y /\ shape y = [B; 512; 768] /\
    (forall b t k, b < B -> t < 512 -> k < 768 ->
       get y [b; t; k] = get x4 [b; k / 32; t; k mod 32]).
Proof.
  intros Hs HB m.
  do 5 (split; [reflexivity|]).
  destruct (AudioExtractor_ok st p x B Hs HB)
    as (x1 & x2 & x3 & x4 & y & E1 & S1 & E2 & S2 & E3 & S3 & E4 & S4 & Ey & Sy & Gy & _).
  exists x1, x2, x3, x4, y. repeat split; assumption.
Qed.

Lemma C7_extractor_shape_witness :
  exists y, AudioExtractor_forward (AudioExtractor_init store0 [Nm "Extractor"])
              (zeros [1; 2; 512; 128]) = Some y /\ shape y = [1; 512; 768].
Proof.
  destruct (C7_extractor_shape store0 [Nm "Extractor"] (zeros [1; 2; 512; 128]) 1 eq_refl
              ltac:(lia))
    as (_ & _ & _ & _ & _ & x1 & x2 & x3 & x4 & y & _ & _ & _ & _ & _ & _ & _ & _ & E & S & _).
  exists y. split; [exact E|exact S].
Defined.

(** C8.  For every tensor of shape [[B, L, D]], [padding_mask_audio]
    returns a Boolean tensor of shape [[B, 1, L]] whose entry at time [t] is
    [True] iff all [D] components of frame [t] are nonzero (a frame with a
    single zero component is padding); and in the model the encoder
    computes this mask from the extractor's output features: every
    successful forward pass runs the layers on the extractor output [e]
    with the mask of [e]. *)
Theorem C8_padding_mask (x : Tensor R) (B L D : nat) :
  shape x = [B; L; D] ->
  (exists msk, padding_mask_audio x = Some msk /\ shape msk = [B; 1; L] /\
     forall b t, get msk [b; 0; t] = true <-> (forall j, j < D -> get x [b; t; j] <> 0%R)) /\
  (forall (m : AudioRegressor) (audio : Tensor R) (rng : Rng) (n : nat)
          (pred enc : Tensor R) (n' : nat),
     AudioRegressor_forward m audio rng n = Some ((pred, enc), n') ->
     exists e msk n1,
       AudioExtractor_forward (Extractor m) audio = Some e /\
       padding_mask_audio e = Some msk /\
       run_layers (AE1 (block m)) e msk rng n = Some (enc, n1)).
Proof.
  intros Hs. split.
  - destruct (padding_mask_ok x B L D Hs) as (msk & E & S & G).
    exists msk. split; [exact E|]. split; [exact S|].
    intros b t. rewrite G. apply (forallb_ne0_iff D (fun j => get x [b; t; j])).
  - intros m audio rng n pred enc n' E.
    destruct (AudioRegressor_forward_inv m audio rng n pred enc n' E)
      as (B' & e & n1 & out & h & ht & _ & Ee & Eb & _).
    destruct (AEBlock1_forward_inv (block m) e rng n enc n1 Eb) as (msk & Em & Er).
    exists e, msk, n1. repeat split; assumption.
Qed.

Lemma C8_padding_mask_witness :
  shape c8_input = [2; 3; 2] /\
  exists msk, padding_mask_audio c8_input = Some msk /\ shape msk = [2; 1; 3] /\
    get msk [0; 0; 0] = true /\ get msk [0; 0; 1] = false /\ get msk [0; 0; 2] = true /\
    get msk [1; 0; 0] = true /\ get msk [1; 0; 1] = false /\ get msk [1; 0; 2] = false.
Proof.
  split; [reflexivity|].
  destruct (C8_padding_mask c8_input 2 3 2 eq_refl) as ((msk & E & S & G) & _).
  assert (Hk : forall b t, (forall j, j < 2 -> get c8_input [b; t; j] <> 0%R) ->
                 get msk [b; 0; t] = true) by (intros b t; apply G).
  assert (Hd : forall b t j, j < 2 -> get c8_input [b; t; j] = 0%R -> get msk [b; 0; t] = false).
  { intros b t j Hj Hz. destruct (get msk [b; 0; t]) eqn:Em; [|reflexivity].
    exfalso. apply (proj1 (G b t) Em j Hj Hz). }
  assert (Hnz : forall j, j < 2 -> INR (1 + j) <> 0%R) by (intros j _; apply not_0_INR; lia).
  exists msk. split; [exact E|]. split; [exact S|].
  split; [apply Hk; intros [|[|j]] Hj; [exact (Hnz 0 Hj)|exact (Hnz 1 Hj)|lia]|].
  split; [apply (Hd 0 1 0); [lia|reflexivity]|].
  split; [apply Hk; intros [|[|j]] Hj; [exact (Hnz 0 Hj)|exact (Hnz 1 Hj)|lia]|].
  split; [apply Hk; intros [|[|j]] Hj; [exact (Hnz 0 Hj)|exact (Hnz 1 Hj)|lia]|].
  split; [apply (Hd 1 1 0); [lia|reflexivity]|].
  apply (Hd 1 2 0); [lia|reflexivity].
Defined.

(** C6.  The repository has a single source file, which only defines the
    model: its top-level statements define the classes [AudioExtractor],
    [FFN], [MHA], [AELayer1], [AEBlock1], [AudioRegressor] (each an
    [nn.Module] with the methods [__init__] and [forward] only) and the
    functions [padding_mask_audio] and [Self_Attention]; no top-level
    statement is a loop, a condition such as a [__main__] guard, or an
    expression statement; and the only statement whose execution on import
    evaluates a call is the assignment of the device handle. *)
Theorem C6_module_contents :
  PyModule.source_files = ["src/Audio-Arousal Model/audio_model.py"%string] /\
  PyModule.class_names PyModule.audio_model =
    ["AudioExtractor"; "FFN"; "MHA"; "AELayer1"; "AEBlock1"; "AudioRegressor"]%string /\
  PyModule.function_names PyModule.audio_model = ["padding_mask_audio"; "Self_Attention"]%string /\
  (forall c ms, In (c, ms) (PyModule.class_methods PyModule.audio_model) ->
     ms = ["__init__"; "forward"]%string) /\
  (forall b, In b (PyModule.class_bases PyModule.audio_model) -> b = [PyModule.nn_Module]) /\
  existsb PyModule.is_control PyModule.audio_model = false /\
  filter PyModule.runs_code PyModule.audio_model =
    [PyModule.SAssign "device" PyModule.device_value].
Proof.
  split; [reflexivity|]. split; [reflexivity|]. split; [reflexivity|].
  split; [|split; [|split; reflexivity]].
  - intros c ms Hin. cbn in Hin.
    repeat (destruct Hin as [Hin|Hin]; [injection Hin; intros; subst; reflexivity|]).
    destruct Hin.
  - intros b Hin. cbn in Hin.
    repeat (destruct Hin as [Hin|Hin]; [subst; reflexivity|]). destruct Hin.
Qed.

(** C9.  [AudioRegressor.forward] is not a deterministic function of its
    input even with every module in eval mode.  After [model.eval()]
    ([AudioRegressor_eval]), the dropout modules of every encoder layer and
    the GRU are out of training mode.  Still, for the default model with a
    fixed weight store ([store_att]) and the all-zero input, two runs
    differ in their outputs when their dropout draws differ.  Those draws
    come from the [nn.Dropout(p=0.1)] that [Self_Attention] builds afresh,
    in training mode, on every call. *)
Theorem C9_eval_nondeterministic :
  let m := AudioRegressor_eval (AudioRegressor_default store_att) in
  let audio := zeros [1; 2; 512; 128] in
  Forall (fun l => training (dropout1 l) = false /\ training (dropout2 l) = false /\
                   training (ffn_dropout (ffn l)) = false) (AE1 (block m)) /\
  g_training (gru m) = false /\
  exists r1 n1 r2 n2,
    AudioRegressor_forward m audio keep_all 0 = Some (r1, n1) /\
    AudioRegressor_forward m audio drop_all 0 = Some (r2, n2) /\
    r1 <> r2.
Proof.
  intros m audio. split; [repeat constructor|]. split; [reflexivity|].
  destruct (att_forward keep_all true (fun _ _ => eq_refl)) as (p1 & e1 & k1 & E1 & _ & P1).
  destruct (att_forward drop_all false (fun _ _ => eq_refl)) as (p2 & e2 & k2 & E2 & P2 & _).
  exists (p1, e1), k1, (p2, e2), k2. split; [exact E1|]. split; [exact E2|].
  intros Heq. injection Heq. intros He _. subst e2.
  specialize (P1 eq_refl). specialize (P2 eq_refl). lra.
Qed.

(** * Further properties of the code *)

(** ** Shared results *)
Lemma Conv2d_none (m : Conv2d) (x : Tensor R) (N C H W : nat) :
  shape x = [N; C; H; W] ->
  C <> in_channels m \/ conv_out_len H (kh m) (ph m) (sh m) = None \/
  conv_out_len W (kw m) (pw m) (sw m) = None ->
  Conv2d_forward m x = None.
Proof.
  intros Hs Hc. unfold Conv2d_forward. rewrite Hs.
  destruct (C =? in_channels m) eqn:EC; [|reflexivity]. apply Nat.eqb_eq in EC.
  destruct Hc as [Hc|[Hc|Hc]]; [contradiction|rewrite Hc; reflexivity|].
  rewrite Hc. destruct (conv_out_len H _ _ _); reflexivity.
Qed.

Lemma reshape3h_ok {A} (x : Tensor A) (a b : nat) :
  0 < a * b ->
  (numel (shape x) mod (a * b) = 0 ->
     exists y, reshape [Some a; Some b; None] x = Some y /\
               shape y = [a; b; numel (shape x) / (a * b)]) /\
  (numel (shape x) mod (a * b) <> 0 -> reshape [Some a; Some b; None] x = None).
Proof.
  intros Hp. unfold reshape. cbn [filter length map].
  assert (Hk : numel [a; b; 1] = a * b) by (unfold numel; cbn; lia). rewrite Hk.
  assert (Hz : (0 <? a * b) = true) by (apply Nat.ltb_lt; exact Hp).
  assert (Hz' : (a * b =? 0) = false) by (apply Nat.eqb_neq; lia).
  rewrite Hz, Hz'. split.
  - intros Hm. rewrite Hm, Nat.eqb_refl, orb_true_r. eexists; split; reflexivity.
  - intros Hm. destruct (numel (shape x) =? a * b) eqn:E.
    + apply Nat.eqb_eq in E. rewrite E, Nat.Div0.mod_same in Hm. contradiction.
    + apply Nat.eqb_neq in Hm. rewrite Hm. reflexivity.
Qed.

Lemma conv_time_len (T : nat) : 1 <= T -> conv_out_len T 1 0 1 = Some T.
Proof.
  intros HT. rewrite conv_out_len_ok by lia. f_equal. rewrite Nat.div_1_r. lia.
Qed.

Lemma conv_k7_len (w : nat) : 1 <= w -> conv_out_len w 7 3 1 = Some ((w + 2 * 3 - 7) / 1 + 1).
Proof. intros Hw. apply conv_out_len_ok; lia. Qed.

Lemma conv_k7_id (w : nat) : 1 <= w -> (w + 2 * 3 - 7) / 1 + 1 = w.
Proof. intros Hw. rewrite Nat.div_1_r. lia. Qed.

Lemma half_ge2 (F : nat) : 4 <= F -> 2 <= (F + 2 * 1 - 4) / 2 + 1.
Proof.
  intros HF. pose proof (Nat.div_mod (F + 2 * 1 - 4) 2 ltac:(lia)).
  pose proof (Nat.mod_upper_bound (F + 2 * 1 - 4) 2 ltac:(lia)). lia.
Qed.

Lemma AudioExtractor_pipeline (st : Store) (p : list seg) (x : Tensor R) (B T F : nat) :
  shape x = [B; 2; T; F] -> 1 <= T -> 4 <= F ->
  exists xt, shape xt = [B; T; 24; ext_width F] /\
    AudioExtractor_forward (AudioExtractor_init st p) x = reshape [Some B; Some 512; None] xt.
Proof.
  intros Hs HT HF.
  set (m := AudioExtractor_init st p).
  set (w1 := (F + 2 * 1 - 4) / 2 + 1).
  assert (Hw1 : 2 <= w1) by (apply half_ge2; exact HF).
  assert (E2 : (w1 + 2 * 3 - 7) / 1 + 1 = w1) by (apply conv_k7_id; lia).
  set (w3 := (w1 + 2 * 1 - 4) / 2 + 1).
  assert (E4 : (w3 + 2 * 3 - 7) / 1 + 1 = w3) by (apply conv_k7_id; unfold w3; lia).
  assert (Ew : ext_width F = w3) by (unfold ext_width; cbv zeta; fold w1; rewrite E2; fold w3; exact E4).
  destruct (Conv2d_ok (conv1 m) x B T F T w1 Hs (conv_time_len T HT)
              (conv_out_len_ok F 4 1 2 ltac:(lia) ltac:(lia))) as (x1 & E1' & S1 & _).
  destruct (Conv2d_ok (conv2 m) (relu x1) B T w1 T w1 S1 (conv_time_len T HT)
              (eq_trans (conv_k7_len w1 ltac:(lia)) (f_equal Some E2))) as (x2 & E2' & S2 & _).
  destruct (Conv2d_ok (conv3 m) (relu x2) B T w1 T w3 S2 (conv_time_len T HT)
              (conv_out_len_ok w1 4 1 2 ltac:(lia) ltac:(lia))) as (x3 & E3' & S3 & _).
  destruct (Conv2d_ok (conv4 m) (relu x3) B T w3 T w3 S3 (conv_time_len T HT)
              (eq_trans (conv_k7_len w3 ltac:(unfold w3; lia)) (f_equal Some E4))) as (x4 & E4' & S4 & _).
  assert (W : wrap_dim (length (shape x4)) 2 = Some 2 /\ wrap_dim (length (shape x4)) 1 = Some 1)
    by (rewrite S4; split; reflexivity).
  destruct (transpose_ok x4 2 1 2 1 (proj1 W) (proj2 W)) as (xt & Et & St & _).
  exists xt. split.
  - rewrite St, S4, Ew. reflexivity.
  - unfold AudioExtractor_forward, size. rewrite Hs. cbn [nth_error].
    rewrite E1', E2', E3', E4', Et. reflexivity.
Qed.

Lemma AudioExtractor_degenerate (st : Store) (p : list seg) (x : Tensor R) (B T F : nat) :
  shape x = [B; 2; T; F] -> T = 0 \/ F < 4 ->
  AudioExtractor_forward (AudioExtractor_init st p) x = None.
Proof.
  intros Hs HTF. unfold AudioExtractor_forward, size. rewrite Hs. cbn [nth_error].
  destruct (Nat.eq_dec T 0) as [->|HT].
  { rewrite (Conv2d_none (conv1 (AudioExtractor_init st p)) x B 2 0 F Hs (or_intror (or_introl eq_refl))). reflexivity. }
  destruct HTF as [|HF]; [contradiction|].
  destruct F as [|[|[|[|F]]]]; [| | | |lia].
  - rewrite (Conv2d_none (conv1 (AudioExtractor_init st p)) x B 2 T 0 Hs (or_intror (or_intror eq_refl))). reflexivity.
  - rewrite (Conv2d_none (conv1 (AudioExtractor_init st p)) x B 2 T 1 Hs (or_intror (or_intror eq_refl))). reflexivity.
  - destruct (Conv2d_ok (conv1 (AudioExtractor_init st p)) x B T 2 T 1 Hs
                (conv_time_len T ltac:(lia)) eq_refl) as (x1 & E1 & S1 & _).
    rewrite E1.
    destruct (Conv2d_ok (conv2 (AudioExtractor_init st p)) (relu x1) B T 1 T 1 S1
                (conv_time_len T ltac:(lia)) eq_refl) as (x2 & E2 & S2 & _).
    rewrite E2.
    rewrite (Conv2d_none (conv3 (AudioExtractor_init st p)) (relu x2) B 8 T 1 S2 (or_intror (or_intror eq_refl))). reflexivity.
  - destruct (Conv2d_ok (conv1 (AudioExtractor_init st p)) x B T 3 T 1 Hs
                (conv_time_len T ltac:(lia)) eq_refl) as (x1 & E1 & S1 & _).
    rewrite E1.
    destruct (Conv2d_ok (conv2 (AudioExtractor_init st p)) (relu x1) B T 1 T 1 S1
                (conv_time_len T ltac:(lia)) eq_refl) as (x2 & E2 & S2 & _).
    rewrite E2.
    rewrite (Conv2d_none (conv3 (AudioExtractor_init st p)) (relu x2) B 8 T 1 S2 (or_intror (or_intror eq_refl))). reflexivity.
Qed.

(** X1. For an input of shape [B; 2; T; F] with B >= 1, [AudioExtractor.forward] returns a tensor of shape [B; 512; 24 * T * W / 512], where W is the frequency width left by the four convolutions, exactly when T >= 1, F >= 4 and 512 divides 24 * T * W; otherwise it fails. *)
Theorem X_extractor_shapes (st : Store) (p : list seg) (x : Tensor R) (B T F : nat) :
  shape x = [B; 2; T; F] -> 1 <= B ->
  let m := AudioExtractor_init st p in
  (1 <= T -> 4 <= F -> (24 * T * ext_width F) mod 512 = 0 ->
     exists y, AudioExtractor_forward m x = Some y /\
               shape y = [B; 512; 24 * T * ext_width F / 512]) /\
  (T = 0 \/ F < 4 \/ (24 * T * ext_width F) mod 512 <> 0 -> AudioExtractor_forward m x = None).
Proof.
  intros Hs HB m.
  assert (Hn : forall xt : Tensor R, shape xt = [B; T; 24; ext_width F] ->
             numel (shape xt) = B * (24 * T * ext_width F)).
  { intros xt Sx. rewrite Sx. unfold numel. cbn [fold_right]. lia. }
  assert (Hmod : forall a, (B * a) mod (B * 512) = 0 <-> a mod 512 = 0).
  { intros a. rewrite Nat.Div0.mul_mod_distr_l. lia. }
  split.
  - intros HT HF Hd.
    destruct (AudioExtractor_pipeline st p x B T F Hs HT HF) as (xt & Sx & Ex).
    destruct (reshape3h_ok xt B 512 ltac:(lia)) as [Hok _].
    rewrite Hn in Hok by exact Sx.
    destruct (Hok (proj2 (Hmod _) Hd)) as (y & Ey & Sy).
    exists y. split; [unfold m; rewrite Ex; exact Ey|].
    rewrite Sy, Nat.Div0.div_mul_cancel_l by lia. reflexivity.
  - intros Hc.
    destruct (Nat.eq_dec T 0) as [HT|HT]; [exact (AudioExtractor_degenerate st p x B T F Hs (or_introl HT))|].
    destruct (Nat.lt_ge_cases F 4) as [HF|HF]; [exact (AudioExtractor_degenerate st p x B T F Hs (or_intror HF))|].
    destruct Hc as [|[|Hd]]; [contradiction|lia|].
    destruct (AudioExtractor_pipeline st p x B T F Hs ltac:(lia) HF) as (xt & Sx & Ex).
    destruct (reshape3h_ok xt B 512 ltac:(lia)) as [_ Hno].
    rewrite Hn in Hno by exact Sx. unfold m. rewrite Ex. apply Hno.
    intros C. apply Hd. apply Hmod. exact C.
Qed.


Lemma Conv2d_frame (m : Conv2d) (x x' y y' : Tensor R) (N C H W b t : nat) :
  kh m = 1 -> ph m = 0 -> sh m = 1 ->
  shape x = [N; C; H; W] -> shape x' = [N; C; H; W] ->
  Conv2d_forward m x = Some y -> Conv2d_forward m x' = Some y' ->
  (forall c f, get x [b; c; t; f] = get x' [b; c; t; f]) ->
  forall o f, get y [b; o; t; f] = get y' [b; o; t; f].
Proof.
  intros Hk Hp Hsh Hs Hs' E E' Hx o f.
  unfold Conv2d_forward in E, E'. rewrite Hs in E. rewrite Hs' in E'.
  destruct (C =? in_channels m); [|discriminate].
  destruct (conv_out_len H (kh m) (ph m) (sh m)); [|discriminate].
  destruct (conv_out_len W (kw m) (pw m) (sw m)); [|discriminate].
  injection E as <-. injection E' as <-. cbn [get nth].
  f_equal. apply rsum_ext; intros c _. rewrite Hk. apply rsum_ext; intros u Hu.
  apply rsum_ext; intros v _. f_equal. replace u with 0 by lia. unfold padded. rewrite Hp, Hsh.
  rewrite Nat.mul_1_r, Nat.add_0_r, Nat.sub_0_r. destruct (_ || _); [reflexivity|]. apply Hx.
Qed.

Lemma relu_frame (x x' : Tensor R) (b t : nat) :
  (forall c f, get x [b; c; t; f] = get x' [b; c; t; f]) ->
  forall c f, get (relu x) [b; c; t; f] = get (relu x') [b; c; t; f].
Proof. intros H c f. cbn [relu tmap get]. rewrite H. reflexivity. Qed.

(** X2. On inputs of shape [B; 2; 512; 128], output row [b; t] of [AudioExtractor.forward] depends only on the input frame [b; _; t; _]: two inputs that agree on that frame give the same 768 features there. *)
Theorem X_extractor_frame_local (st : Store) (p : list seg) (x x' : Tensor R) (B b t : nat) :
  shape x = [B; 2; 512; 128] -> shape x' = [B; 2; 512; 128] -> 1 <= B ->
  (forall c f, get x [b; c; t; f] = get x' [b; c; t; f]) ->
  exists y y', AudioExtractor_forward (AudioExtractor_init st p) x = Some y /\
    AudioExtractor_forward (AudioExtractor_init st p) x' = Some y' /\
    (b < B -> t < 512 -> forall k, k < 768 -> get y [b; t; k] = get y' [b; t; k]).
Proof.
  intros Hs Hs' HB Hx.
  destruct (AudioExtractor_ok st p x B Hs HB)
    as (x1 & x2 & x3 & x4 & y & E1 & S1 & E2 & S2 & E3 & S3 & E4 & S4 & Ey & _ & Gy & _).
  destruct (AudioExtractor_ok st p x' B Hs' HB)
    as (x1' & x2' & x3' & x4' & y' & E1' & S1' & E2' & S2' & E3' & S3' & E4' & S4' & Ey' & _ & Gy' & _).
  exists y, y'. split; [exact Ey|]. split; [exact Ey'|]. intros Hb Ht k Hk.
  rewrite Gy, Gy' by assumption.
  assert (F1 := Conv2d_frame (conv1 (AudioExtractor_init st p)) x x' x1 x1' B 2 512 128 b t eq_refl eq_refl eq_refl Hs Hs' E1 E1' Hx).
  assert (F2 := Conv2d_frame (conv2 (AudioExtractor_init st p)) (relu x1) (relu x1') x2 x2' B 8 512 64 b t eq_refl eq_refl eq_refl
                  S1 S1' E2 E2' (relu_frame _ _ b t F1)).
  assert (F3 := Conv2d_frame (conv3 (AudioExtractor_init st p)) (relu x2) (relu x2') x3 x3' B 8 512 64 b t eq_refl eq_refl eq_refl
                  S2 S2' E3 E3' (relu_frame _ _ b t F2)).
  assert (F4 := Conv2d_frame (conv4 (AudioExtractor_init st p)) (relu x3) (relu x3') x4 x4' B 24 512 32 b t eq_refl eq_refl eq_refl
                  S3 S3' E4 E4' (relu_frame _ _ b t F3)).
  apply F4.
Qed.

Lemma wrap_dim_m2 (r : nat) : 2 <= r -> wrap_dim r (-2) = Some (r - 2).
Proof.
  intros Hr. unfold wrap_dim. replace ((0 <=? -2)%Z) with false by reflexivity.
  replace ((- Z.of_nat r <=? -2)%Z) with true by (symmetry; apply Z.leb_le; lia).
  f_equal. lia.
Qed.

Lemma padding_mask_rank (x : Tensor R) :
  (length (shape x) < 3 -> padding_mask_audio x = None) /\
  (3 <= length (shape x) -> exists msk, padding_mask_audio x = Some msk).
Proof.
  split.
  - intros Hr. unfold padding_mask_audio, all_dim. cbn [ne0 tmap shape].
    replace (2 <? length (shape x)) with false by (symmetry; apply Nat.ltb_ge; lia). reflexivity.
  - intros Hr. unfold padding_mask_audio, all_dim. cbn [ne0 tmap shape].
    replace (2 <? length (shape x)) with true by (symmetry; apply Nat.ltb_lt; lia).
    unfold unsqueeze. cbn [shape].
    assert (Hl : length (remove_at 2 (shape x)) = length (shape x) - 1).
    { unfold remove_at. rewrite length_app, length_firstn, length_skipn. lia. }
    rewrite Hl, wrap_dim_m2 by lia. eexists; reflexivity.
Qed.

(** X3. [padding_mask_audio] fails on a tensor of rank below 3, and so does [AEBlock1.forward] for any list of layers. *)
Theorem X_padding_mask_rank (x : Tensor R) :
  length (shape x) < 3 ->
  padding_mask_audio x = None /\
  forall (blk : AEBlock1) (rng : Rng) (n : nat), AEBlock1_forward blk x rng n = None.
Proof.
  intros Hr. pose proof (proj1 (padding_mask_rank x) Hr) as E. split; [exact E|].
  intros blk rng n. unfold AEBlock1_forward, bind, lift. rewrite E. reflexivity.
Qed.

(** X4. An [AEBlock1] built with [n_layers = 0] returns its input unchanged on any tensor of rank at least 3, and draws no dropout mask. *)
Theorem X_AEBlock1_no_layers (st : Store) (p : list seg) (hid H inner : nat) (x : Tensor R)
    (rng : Rng) (n : nat) :
  3 <= length (shape x) ->
  AEBlock1_forward (AEBlock1_init st p hid H inner 0) x rng n = Some (x, n).
Proof.
  intros Hr. destruct (proj2 (padding_mask_rank x) Hr) as (msk & E).
  unfold AEBlock1_forward. lstep E. reflexivity.
Qed.


Lemma rsum_scale (n : nat) (f : nat -> R) (c : R) :
  rsum n (fun j => (f j * c)%R) = (rsum n f * c)%R.
Proof.
  unfold rsum. induction (seq 0 n) as [|j l IH]; cbn [map fold_right]; [ring|].
  rewrite IH. ring.
Qed.

Lemma rsum_le (n : nat) (f g : nat -> R) :
  (forall j, j < n -> (f j <= g j)%R) -> (rsum n f <= rsum n g)%R.
Proof.
  intros H. unfold rsum.
  assert (Hl : forall j, In j (seq 0 n) -> (f j <= g j)%R)
    by (intros j Hj; apply in_seq in Hj; apply H; lia).
  clear H. induction (seq 0 n) as [|j l IH]; cbn [map fold_right]; [lra|].
  pose proof (Hl j (or_introl eq_refl)).
  assert (fold_right Rplus 0 (map f l) <= fold_right Rplus 0 (map g l))%R
    by (apply IH; intros; apply Hl; right; assumption).
  lra.
Qed.

Lemma rsum_pos (n : nat) (f : nat -> R) :
  0 < n -> (forall j, j < n -> (0 < f j)%R) -> (0 < rsum n f)%R.
Proof.
  intros Hn H. destruct n as [|n]; [lia|]. rewrite rsum_S.
  pose proof (H 0 ltac:(lia)).
  assert (0 <= rsum n (fun j => f (S j)))%R
    by (apply rsum_nonneg; intros j Hj; apply Rlt_le, H; lia).
  lra.
Qed.

(** The attention weight of one key: softmax of the logits, rescaled by the
    dropout. *)
Lemma sa_weight_sum (Lk : nat) (l : nat -> R) :
  0 < Lk ->
  rsum Lk (fun j => (exp (l j) / rsum Lk (fun j' => exp (l j')) / (1 - 1 / 10))%R) = (10 / 9)%R.
Proof.
  intros HL.
  assert (HZ : (0 < rsum Lk (fun j' => exp (l j')))%R)
    by (apply rsum_pos; [exact HL|intros; apply exp_pos]).
  rewrite (rsum_ext Lk _ (fun j => (exp (l j) * (/ rsum Lk (fun j' => exp (l j')) / (1 - 1 / 10)))%R))
    by (intros; unfold Rdiv; ring).
  rewrite rsum_scale. field. lra.
Qed.

(** X5. In [Self_Attention] with well-shaped Q, K, V and mask, every returned attention weight is nonnegative, and zero where the dropout drops it; each row of weights sums to at most 10/9, and to exactly 10/9 when the dropout keeps the whole row. *)
Theorem X_attention_weights (Q K V : Tensor R) (mask : option (Tensor bool)) (rng : Rng) (n : nat)
    (a h L Lk d e : nat) :
  shape Q = [a; h; L; d] -> shape K = [a; h; Lk; d] -> shape V = [a; h; Lk; e] ->
  match mask with Some mm => shape mm = [a; 1; Lk] | None => True end ->
  exists att score,
    Self_Attention Q K V mask rng n = Some ((att, score), S n) /\
    (forall b hh i j, b < a -> j < Lk ->
       (0 <= get score [b; hh; i; j])%R /\
       (rng n [b; hh; i; j] = false -> get score [b; hh; i; j] = 0%R)) /\
    (forall b hh i, b < a -> (rsum Lk (fun j => get score [b; hh; i; j]) <= 10 / 9)%R) /\
    (forall b hh i, b < a -> 0 < Lk -> (forall j, j < Lk -> rng n [b; hh; i; j] = true) ->
       rsum Lk (fun j => get score [b; hh; i; j]) = (10 / 9)%R).
Proof.
  intros HQ HK HV HM.
  destruct (Self_Attention_ok Q K V mask rng n a h L Lk d e HQ HK HV HM)
    as (att & score & Esa & _ & _ & Gsc & _).
  exists att, score. split; [exact Esa|].
  set (w := fun b hh i j => (exp (sa_logit Q K d mask b hh i j)
               / rsum Lk (fun j' => exp (sa_logit Q K d mask b hh i j')) / (1 - 1 / 10))%R).
  assert (Hpos : forall b hh i j, j < Lk -> (0 < w b hh i j)%R).
  { intros b hh i j Hj. unfold w.
    assert (HZ : (0 < rsum Lk (fun j' => exp (sa_logit Q K d mask b hh i j')))%R)
      by (apply rsum_pos; [lia|intros; apply exp_pos]).
    pose proof (exp_pos (sa_logit Q K d mask b hh i j)).
    apply Rdiv_lt_0_compat; [apply Rdiv_lt_0_compat; assumption|lra]. }
  assert (Hsum : forall b hh i, 0 < Lk -> rsum Lk (fun j => w b hh i j) = (10 / 9)%R).
  { intros b hh i HL. apply sa_weight_sum. exact HL. }
  split; [|split].
  - intros b hh i j Hb Hj. rewrite Gsc by assumption. fold (w b hh i j).
    split; [|intros Hr; rewrite Hr; reflexivity].
    destruct (rng n [b; hh; i; j]); [apply Rlt_le, Hpos; exact Hj|lra].
  - intros b hh i Hb. destruct (Nat.eq_dec Lk 0) as [->|HL].
    + unfold rsum. cbn. lra.
    + rewrite <- (Hsum b hh i ltac:(lia)). apply rsum_le. intros j Hj.
      rewrite Gsc by assumption. fold (w b hh i j).
      destruct (rng n [b; hh; i; j]); [lra|]. apply Rlt_le, Hpos. exact Hj.
  - intros b hh i Hb HL Hk. rewrite <- (Hsum b hh i HL). apply rsum_ext. intros j Hj.
    rewrite Gsc, Hk by assumption. reflexivity.
Qed.

(** X6. In [Self_Attention], when the mask hides every key of batch element b, the scores of b are uniform: each kept weight equals 1 / Lk rescaled by 1/(1 - 0.1), and a fully kept row averages V uniformly. *)
Theorem X_fully_masked_uniform (Q K V : Tensor R) (mm : Tensor bool) (rng : Rng) (n : nat)
    (a h L Lk d e : nat) (b : nat) :
  shape Q = [a; h; L; d] -> shape K = [a; h; Lk; d] -> shape V = [a; h; Lk; e] ->
  shape mm = [a; 1; Lk] -> b < a -> (forall j, j < Lk -> get mm [b; 0; j] = false) ->
  exists att score,
    Self_Attention Q K V (Some mm) rng n = Some ((att, score), S n) /\
    (forall hh i j, j < Lk ->
       get score [b; hh; i; j] =
       if rng n [b; hh; i; j] then (/ INR Lk / (1 - 1 / 10))%R else 0%R) /\
    (forall hh i k, (forall j, j < Lk -> rng n [b; hh; i; j] = true) ->
       get att [b; hh; i; k] = (10 / 9 * (rsum Lk (fun j => get V [b; hh; j; k]) / INR Lk))%R).
Proof.
  intros HQ HK HV HM Hb Hm.
  destruct (Self_Attention_ok Q K V (Some mm) rng n a h L Lk d e HQ HK HV HM)
    as (att & score & Esa & _ & _ & Gsc & Gatt).
  assert (Hl : forall hh i j, j < Lk -> sa_logit Q K d (Some mm) b hh i j = (- 1000000000)%R).
  { intros hh i j Hj. unfold sa_logit. rewrite Hm by exact Hj. reflexivity. }
  assert (Hs : forall hh i j, j < Lk ->
             get score [b; hh; i; j] =
             if rng n [b; hh; i; j] then (/ INR Lk / (1 - 1 / 10))%R else 0%R).
  { intros hh i j Hj. rewrite Gsc by assumption. destruct (rng n [b; hh; i; j]); [|reflexivity].
    rewrite Hl by exact Hj.
    rewrite (rsum_ext Lk _ (fun _ => exp (- 1000000000))) by (intros; rewrite Hl by assumption; reflexivity).
    rewrite rsum_const.
    assert (HL : (0 < INR Lk)%R) by (apply lt_0_INR; lia).
    pose proof (exp_pos (- 1000000000)). field. lra. }
  exists att, score. split; [exact Esa|]. split; [exact Hs|].
  intros hh i k Hk. rewrite Gatt.
  destruct (Nat.eq_dec Lk 0) as [->|HL0].
  { unfold rsum. cbn. unfold Rdiv. ring. }
  assert (HL : (0 < INR Lk)%R) by (apply lt_0_INR; lia).
  rewrite (rsum_ext Lk _ (fun j => (get V [b; hh; j; k] * (/ INR Lk / (1 - 1 / 10)))%R)).
  - rewrite rsum_scale. field. lra.
  - intros j Hj. rewrite Hs, Hk by exact Hj. ring.
Qed.


Lemma bind_none {A B} (c : M A) (k : A -> M B) rng n : c rng n = None -> bind c k rng n = None.
Proof. intros H. unfold bind. rewrite H. reflexivity. Qed.

Lemma lift_none {A} (o : option A) rng n : o = None -> lift o rng n = None.
Proof. intros H. unfold lift. rewrite H. reflexivity. Qed.

Lemma Linear_mismatch (m : Linear) (x : Tensor R) (pre : list nat) (c : nat) :
  shape x = pre ++ [c] -> c <> in_features m -> Linear_forward m x = None.
Proof.
  intros Hs Hc. unfold Linear_forward.
  assert (Hl : nth (length (shape x) - 1) (shape x) 0 = c).
  { rewrite Hs, length_app. cbn [length]. rewrite Nat.add_sub. apply nth_middle. }
  rewrite Hl. apply Nat.eqb_neq in Hc. rewrite Hc. destruct (shape x); reflexivity.
Qed.

Lemma MHA_mismatch (st : Store) (q : list seg) (hid H : nat) (dr : R) (x : Tensor R)
    (mask : option (Tensor bool)) (rng : Rng) (n B L c : nat) :
  shape x = [B; L; c] -> c <> hid ->
  MHA_forward (MHA_init st q hid H dr) x x x mask rng n = None.
Proof.
  intros Hs Hc. unfold MHA_forward.
  assert (Esz : size x 0 = Some B) by (unfold size; rewrite Hs; reflexivity).
  lstep Esz. apply bind_none, lift_none. unfold heads.
  rewrite (Linear_mismatch (Q_fc (MHA_init st q hid H dr)) x [B; L] c Hs Hc). reflexivity.
Qed.

Lemma AELayer1_mismatch (a : AELayer1) (hid H : nat) (x : Tensor R) (mask : option (Tensor bool))
    (rng : Rng) (n B L c : nat) :
  layer_ok a hid H -> shape x = [B; L; c] -> c <> hid ->
  AELayer1_forward a x mask rng n = None.
Proof.
  intros ((st & q & dr & HM) & _) Hs Hc. unfold AELayer1_forward. apply bind_none.
  rewrite HM. exact (MHA_mismatch st q hid H dr x mask rng n B L c Hs Hc).
Qed.

Lemma GRU_mismatch (g : GRU) (x h0 : Tensor R) (rng : Rng) (n B T c : nat) :
  g_batch_first g = true -> shape x = [B; T; c] -> c <> g_input_size g ->
  GRU_forward g x h0 rng n = None.
Proof.
  intros Hbf Hs Hc. unfold GRU_forward. rewrite Hbf. mstep (eq_refl (Some (x, n))).
  rewrite Hs. apply Nat.eqb_neq in Hc. rewrite Hc. reflexivity.
Qed.

Lemma model_in_mode_gen (st : Store) (hid H inner nl : nat) (ev : bool) :
  let m := model_in_mode ev (AudioRegressor_init st hid H inner nl) in
  Extractor m = AudioExtractor_init st [Nm "Extractor"] /\
  Forall (fun a => layer_ok a hid H) (AE1 (block m)) /\
  g_batch_first (gru m) = true /\ g_input_size (gru m) = hid.
Proof.
  intros m. destruct ev.
  - repeat split. apply AEBlock1_eval_layers.
  - repeat split. apply AEBlock1_init_layers.
Qed.

(** When the extractor's features do not have [hidden_dim] components, the
    rest of the forward pass raises: in the first encoder layer, or in the
    GRU when there is no encoder layer. *)
Lemma AudioRegressor_tail_mismatch (st : Store) (hid H inner nl : nat) (ev : bool)
    (audio e : Tensor R) (rng : Rng) (n B L c : nat) :
  let m := model_in_mode ev (AudioRegressor_init st hid H inner nl) in
  size audio 0 = Some B -> AudioExtractor_forward (Extractor m) audio = Some e ->
  shape e = [B; L; c] -> c <> hid ->
  AudioRegressor_forward m audio rng n = None.
Proof.
  intros m Hsz He Hs Hc.
  destruct (model_in_mode_gen st hid H inner nl ev) as (_ & Hall & Hbf & Hin). fold m in Hall, Hbf, Hin.
  destruct (padding_mask_ok e B L c Hs) as (msk & Em & _ & _).
  unfold AudioRegressor_forward. lstep Hsz. lstep He.
  destruct (AE1 (block m)) as [|a ls] eqn:EL.
  - assert (Eb : AEBlock1_forward (block m) e rng n = Some (e, n))
      by (unfold AEBlock1_forward; lstep Em; rewrite EL; reflexivity).
    mstep Eb. cbv zeta. apply bind_none.
    apply GRU_mismatch with (B := B) (T := L) (c := c); [exact Hbf|exact Hs|congruence].
  - pose proof (Forall_inv Hall) as Ha.
    apply bind_none. unfold AEBlock1_forward. lstep Em. rewrite EL.
    cbn [run_layers]. apply bind_none. exact (AELayer1_mismatch a hid H e (Some msk) rng n B L c Ha Hs Hc).
Qed.

(** With a batch of size 0 the extractor's [reshape([0, 512, -1])] raises
    whatever the rest of the shape, and so does the whole model. *)
Lemma AudioExtractor_batch0 (m : AudioExtractor) (x : Tensor R) (s : list nat) :
  shape x = 0 :: s -> AudioExtractor_forward m x = None.
Proof.
  intros Hs. unfold AudioExtractor_forward. unfold size. rewrite Hs. cbn [nth_error].
  destruct (Conv2d_forward (conv1 m) x) as [x1|]; [|reflexivity].
  destruct (Conv2d_forward (conv2 m) (relu x1)) as [x2|]; [|reflexivity].
  destruct (Conv2d_forward (conv3 m) (relu x2)) as [x3|]; [|reflexivity].
  destruct (Conv2d_forward (conv4 m) (relu x3)) as [x4|]; [|reflexivity].
  destruct (transpose x4 2 1) as [x5|]; [|reflexivity].
  unfold reshape. cbn [numel map fold_right filter length].
  destruct (_ || _); reflexivity.
Qed.

Lemma AudioRegressor_batch0 (m : AudioRegressor) (audio : Tensor R) (s : list nat)
    (rng : Rng) (n : nat) :
  shape audio = 0 :: s -> AudioRegressor_forward m audio rng n = None.
Proof.
  intros Hs. assert (Hsz : size audio 0 = Some 0) by (unfold size; rewrite Hs; reflexivity).
  unfold AudioRegressor_forward. lstep Hsz. apply bind_none, lift_none.
  exact (AudioExtractor_batch0 (Extractor m) audio s Hs).
Qed.

(** X7. An [AudioRegressor] built with [hidden_dim] other than 768 fails on every input of shape [B; 2; 512; 128], in training and in evaluation mode. *)
Theorem X_hidden_dim_fixed (st : Store) (hid H inner nl : nat) (ev : bool) (audio : Tensor R)
    (rng : Rng) (n B : nat) :
  hid <> 768 -> shape audio = [B; 2; 512; 128] ->
  AudioRegressor_forward (model_in_mode ev (AudioRegressor_init st hid H inner nl)) audio rng n = None.
Proof.
  intros Hh Ha.
  destruct (Nat.eq_dec B 0) as [HB0|HB0].
  { subst B. exact (AudioRegressor_batch0 _ audio _ rng n Ha). }
  assert (HB : 1 <= B) by lia.
  destruct (model_in_mode_gen st hid H inner nl ev) as (HE & _).
  destruct (AudioExtractor_ok st [Nm "Extractor"] audio B Ha HB)
    as (x1 & x2 & x3 & x4 & e & _ & _ & _ & _ & _ & _ & _ & _ & Ee & Se & _ & _).
  rewrite <- HE in Ee.
  apply (AudioRegressor_tail_mismatch st hid H inner nl ev audio e rng n B 512 768).
  - unfold size. rewrite Ha. reflexivity.
  - exact Ee.
  - exact Se.
  - congruence.
Qed.


Lemma AudioRegressor_tail_ok (st : Store) (H inner nl : nat) (ev : bool) (audio e : Tensor R)
    (rng : Rng) (n B : nat) :
  H * (768 / H) = 768 -> 1 <= B ->
  let m := model_in_mode ev (AudioRegressor_init st 768 H inner nl) in
  size audio 0 = Some B -> AudioExtractor_forward (Extractor m) audio = Some e ->
  shape e = [B; 512; 768] ->
  exists pred enc n', AudioRegressor_forward m audio rng n = Some ((pred, enc), n') /\
    shape pred = [B; 1] /\ shape enc = [B; 512; 768].
Proof.
  intros Hdiv HB m Hsz Ee Se.
  destruct (model_in_mode_parts st H inner nl ev)
    as (HE & Hall & Hbf & Hnl & Hin & Hhd & Htr & Hfc). fold m in HE, Hall, Hbf, Hnl, Hin, Hhd, Htr, Hfc.
  destruct (AEBlock1_ok (block m) 768 H e rng n B 512 Hall Hdiv HB ltac:(lia) Se)
    as (msk & enc & n1 & _ & _ & _ & Eenc & Senc).
  assert (Sx : shape enc = [B; 512; g_input_size (gru m)]) by (rewrite Hin; exact Senc).
  assert (Sh : shape (zeros [2; B; 64]) = [2; B; g_hidden_size (gru m)]) by (rewrite Hhd; reflexivity).
  destruct (GRU2_ok (gru m) enc (zeros [2; B; 64]) rng n1 B 512 Hbf Hnl Sx Sh)
    as (nxt & out & h & n2 & _ & _ & Egru & Sout & _).
  rewrite Hhd in Sout.
  destruct (select_ok out B 512 64 Sout ltac:(lia)) as (ht & Eht & Sht & _).
  assert (Sht' : shape ht = [B] ++ [in_features (fc m)]) by (rewrite Sht, Hfc; reflexivity).
  destruct (Linear_ok (fc m) ht [B] Sht') as (pred & Ep & Sp & _).
  exists pred, enc, n2. split.
  - unfold AudioRegressor_forward. lstep Hsz. lstep Ee. mstep Eenc. mstep Egru. lstep Eht. lstep Ep.
    reflexivity.
  - split; [rewrite Sp, Hfc; reflexivity|exact Senc].
Qed.

(** X8. With [hidden_dim = 768] and [num_head] dividing it, [AudioRegressor.forward] on an input of shape [B; 2; T; F] succeeds, with prediction shape [B; 1] and encoder output [B; 512; 768], exactly when B >= 1, T >= 1, F >= 4 and T * W = 512 * 32 for the extractor's frequency width W; otherwise it fails. *)
Theorem X_accepted_shapes (st : Store) (H inner nl : nat) (ev : bool) (audio : Tensor R)
    (rng : Rng) (n B T F : nat) :
  H * (768 / H) = 768 -> shape audio = [B; 2; T; F] ->
  let m := model_in_mode ev (AudioRegressor_init st 768 H inner nl) in
  (1 <= B -> 1 <= T -> 4 <= F -> T * ext_width F = (512 * 32) ->
     exists pred enc n', AudioRegressor_forward m audio rng n = Some ((pred, enc), n') /\
       shape pred = [B; 1] /\ shape enc = [B; 512; 768]) /\
  (B = 0 \/ T = 0 \/ F < 4 \/ T * ext_width F <> (512 * 32) -> AudioRegressor_forward m audio rng n = None).
Proof.
  intros Hdiv Ha m.
  destruct (model_in_mode_parts st H inner nl ev) as (HE & _). fold m in HE.
  assert (Hsz : size audio 0 = Some B) by (unfold size; rewrite Ha; reflexivity).
  split.
  - intros HB HT HF Hw.
    destruct (X_extractor_shapes st [Nm "Extractor"] audio B T F Ha HB) as (Hok & _).
    rewrite <- HE in Hok.
    assert (Hd : (24 * T * ext_width F) mod 512 = 0) by (rewrite <- Nat.mul_assoc, Hw; reflexivity).
    destruct (Hok HT HF Hd) as (e & Ee & Se).
    assert (Hq : 24 * T * ext_width F / 512 = 768) by (rewrite <- Nat.mul_assoc, Hw; reflexivity).
    rewrite Hq in Se.
    exact (AudioRegressor_tail_ok st H inner nl ev audio e rng n B Hdiv HB Hsz Ee Se).
  - intros Hc.
    destruct (Nat.eq_dec B 0) as [HB0|HB0].
    { subst B. exact (AudioRegressor_batch0 m audio _ rng n Ha). }
    assert (HB : 1 <= B) by lia.
    destruct (X_extractor_shapes st [Nm "Extractor"] audio B T F Ha HB) as (Hok & Hno).
    rewrite <- HE in Hok, Hno.
    destruct (Nat.eq_dec T 0) as [HT|HT].
    { unfold AudioRegressor_forward. lstep Hsz. apply bind_none, lift_none. apply Hno. left. exact HT. }
    destruct (Nat.lt_ge_cases F 4) as [HF|HF].
    { unfold AudioRegressor_forward. lstep Hsz. apply bind_none, lift_none. apply Hno. right; left. exact HF. }
    destruct Hc as [|[|[|Hw]]]; [contradiction|contradiction|lia|].
    destruct (Nat.eq_dec ((24 * T * ext_width F) mod 512) 0) as [Hd|Hd].
    + destruct (Hok ltac:(lia) HF Hd) as (e & Ee & Se).
      apply (AudioRegressor_tail_mismatch st 768 H inner nl ev audio e rng n B 512
               (24 * T * ext_width F / 512) Hsz Ee Se).
      intros Hq. apply Hw.
      pose proof (Nat.div_mod (24 * T * ext_width F) 512 ltac:(lia)) as Hm.
      rewrite Hq, Hd, <- Nat.mul_assoc in Hm. lia.
    + unfold AudioRegressor_forward. lstep Hsz. apply bind_none, lift_none. apply Hno. right; right. exact Hd.
Qed.


Lemma rsum_sub_const (n : nat) (f : nat -> R) (c : R) :
  rsum n (fun j => (f j - c)%R) = (rsum n f - INR n * c)%R.
Proof.
  unfold rsum. rewrite <- (length_seq n 0) at 3.
  induction (seq 0 n) as [|j l IH]; cbn [map fold_right length]; [cbn; ring|].
  rewrite IH, S_INR. ring.
Qed.

Lemma replace_at_last (row : list nat) (j k : nat) :
  replace_at (length row) j (row ++ [k]) = row ++ [j].
Proof.
  unfold replace_at. rewrite firstn_app, Nat.sub_diag, firstn_all, skipn_app.
  rewrite skipn_all2 by lia. replace (S (length row) - length row) with 1 by lia.
  cbn. rewrite app_nil_r. reflexivity.
Qed.

Lemma ln_mean_ext (d : nat) (f g : nat -> R) :
  (forall j, j < d -> f j = g j) -> ln_mean d f = ln_mean d g.
Proof. intros H. unfold ln_mean. rewrite (rsum_ext d f g H). reflexivity. Qed.

Lemma ln_var_ext (d : nat) (f g : nat -> R) :
  (forall j, j < d -> f j = g j) -> ln_var d f = ln_var d g.
Proof.
  intros H. unfold ln_var. rewrite (ln_mean_ext d f g H).
  rewrite (rsum_ext d _ (fun j => ((g j - ln_mean d g) * (g j - ln_mean d g))%R)); [reflexivity|].
  intros j Hj. rewrite (H j Hj). reflexivity.
Qed.

(** A LayerNorm output row, with the affine map undone, sums to zero. *)
Lemma LayerNorm_centered (m : LayerNorm) (x y : Tensor R) :
  LayerNorm_forward m x = Some y ->
  (forall k, k < normalized_dim m -> ln_weight m k <> 0%R) ->
  exists pre : list nat, shape y = pre ++ [normalized_dim m] /\
    forall row, length row = length pre ->
      rsum (normalized_dim m)
        (fun k => ((get y (row ++ [k]) - ln_bias m k) / ln_weight m k)%R) = 0%R.
Proof.
  intros E Hw.
  assert (Hne : shape x <> []) by (intros Hs; unfold LayerNorm_forward in E; rewrite Hs in E; discriminate).
  destruct (exists_last Hne) as (pre & a & Hs).
  assert (Ha : a = normalized_dim m).
  { unfold LayerNorm_forward in E. cbv zeta in E.
    assert (Hr : length (shape x) - 1 = length pre) by (rewrite Hs, length_app; cbn; lia).
    rewrite Hr in E. rewrite Hs, nth_middle in E. destruct (pre ++ [a]) eqn:Ep; [destruct pre; discriminate|].
    destruct (a =? normalized_dim m) eqn:Ea; [apply Nat.eqb_eq; exact Ea|discriminate]. }
  subst a.
  destruct (yields_eq _ y _ _ (LayerNorm_ok m x pre Hs) E) as (Sy & Gy).
  exists pre. split; [exact Sy|]. intros row Hl.
  set (d := normalized_dim m) in *.
  set (mu := ln_mean d (fun j => get x (row ++ [j]))).
  set (s := sqrt (ln_var d (fun j => get x (row ++ [j])) + ln_eps m)).
  rewrite (rsum_ext d _ (fun k => ((get x (row ++ [k]) - mu) * / s)%R)).
  - rewrite (rsum_scale d (fun k => (get x (row ++ [k]) - mu)%R)), rsum_sub_const.
    unfold mu, ln_mean. destruct (Nat.eq_dec d 0) as [Hd|Hd].
    + rewrite Hd. unfold rsum. cbn. ring.
    + match goal with |- ((?a - INR d * (?a / INR d)) * / s)%R = _ =>
        replace (a - INR d * (a / INR d))%R with 0%R by (field; apply not_0_INR; exact Hd) end.
      ring.
  - intros k Hk. rewrite Gy. cbv zeta.
    rewrite <- Hl, nth_middle.
    assert (Hrow : forall j, j < d -> get x (replace_at (length row) j (row ++ [k]))
                                   = get x (row ++ [j]))
      by (intros j _; rewrite replace_at_last; reflexivity).
    rewrite (ln_var_ext d _ _ Hrow), (ln_mean_ext d _ _ Hrow). fold mu s. unfold Rdiv.
    rewrite Rplus_minus_r, Rmult_assoc, Rinv_r, Rmult_1_r by exact (Hw k Hk).
    reflexivity.
Qed.

Lemma AELayer1_last_norm (a : AELayer1) (x : Tensor R) (mask : option (Tensor bool))
    (rng : Rng) (n : nat) (y : Tensor R) (n' : nat) :
  AELayer1_forward a x mask rng n = Some (y, n') ->
  exists s, LayerNorm_forward (layerNorm2 a) s = Some y.
Proof.
  unfold AELayer1_forward. intros E.
  do 7 (apply bind_inv in E; destruct E as (? & ? & _ & E); cbv beta in E).
  apply lift_inv in E. destruct E as (E & _). eexists. exact E.
Qed.

Lemma run_layers_last (ls : list AELayer1) (a : AELayer1) (x : Tensor R) (msk : Tensor bool)
    (rng : Rng) (n : nat) (y : Tensor R) (n' : nat) :
  run_layers (ls ++ [a]) x msk rng n = Some (y, n') ->
  exists z n1, AELayer1_forward a z (Some msk) rng n1 = Some (y, n').
Proof.
  revert x n. induction ls as [|b ls IH]; intros x n E; cbn [app run_layers] in E.
  - apply bind_inv in E. destruct E as (z & n1 & Ez & E). cbv beta in E.
    unfold ret in E. injection E. intros <- <-. exists x, n. exact Ez.
  - apply bind_inv in E. destruct E as (z & n1 & _ & E). cbv beta in E. exact (IH z n1 E).
Qed.

(** X9. Whenever [AEBlock1.forward] succeeds with at least one layer, each row of its output, once the last layer's final LayerNorm scale and shift are undone (scale nonzero), sums to zero. *)
Theorem X_encoder_rows_centered (blk : AEBlock1) (ls : list AELayer1) (a : AELayer1)
    (x : Tensor R) (rng : Rng) (n : nat) (y : Tensor R) (n' : nat) :
  AE1 blk = ls ++ [a] ->
  (forall k, k < normalized_dim (layerNorm2 a) -> ln_weight (layerNorm2 a) k <> 0%R) ->
  AEBlock1_forward blk x rng n = Some (y, n') ->
  exists pre : list nat, shape y = pre ++ [normalized_dim (layerNorm2 a)] /\
    forall row, length row = length pre ->
      rsum (normalized_dim (layerNorm2 a))
        (fun k => ((get y (row ++ [k]) - ln_bias (layerNorm2 a) k) / ln_weight (layerNorm2 a) k)%R)
      = 0%R.
Proof.
  intros Hl Hw E. unfold AEBlock1_forward in E. rewrite Hl in E.
  apply bind_inv in E. destruct E as (msk & n0 & _ & E). cbv beta in E.
  destruct (run_layers_last ls a x msk rng n0 y n' E) as (z & n1 & Ez).
  destruct (AELayer1_last_norm a z (Some msk) rng n1 y n' Ez) as (s & Es).
  exact (LayerNorm_centered (layerNorm2 a) s y Es Hw).
Qed.



(** ** Witnesses of the further properties *)

Lemma X_extractor_shapes_witness :
  shape (zeros [1; 2; 256; 64]) = [1; 2; 256; 64] /\ 1 <= 1 /\
  let m := AudioExtractor_init st_one [] in
  (1 <= 256 -> 4 <= 64 -> (24 * 256 * ext_width 64) mod 512 = 0 ->
     exists y, AudioExtractor_forward m (zeros [1; 2; 256; 64]) = Some y /\
               shape y = [1; 512; 24 * 256 * ext_width 64 / 512]) /\
  (256 = 0 \/ 64 < 4 \/ (24 * 256 * ext_width 64) mod 512 <> 0 ->
     AudioExtractor_forward m (zeros [1; 2; 256; 64]) = None).
Proof.
  split; [reflexivity|]. split; [lia|].
  exact (X_extractor_shapes st_one [] (zeros [1; 2; 256; 64]) 1 256 64 eq_refl ltac:(lia)).
Defined.


Lemma X_extractor_frame_local_witness :
  shape (zeros [1; 2; 512; 128]) = [1; 2; 512; 128] /\ shape frame0_input = [1; 2; 512; 128] /\
  1 <= 1 /\ (forall c f, get (zeros [1; 2; 512; 128]) [0; c; 0; f] = get frame0_input [0; c; 0; f]) /\
  exists y y', AudioExtractor_forward (AudioExtractor_init st_one []) (zeros [1; 2; 512; 128]) = Some y /\
    AudioExtractor_forward (AudioExtractor_init st_one []) frame0_input = Some y' /\
    (0 < 1 -> 0 < 512 -> forall k, k < 768 -> get y [0; 0; k] = get y' [0; 0; k]).
Proof.
  assert (Hx : forall c f, get (zeros [1; 2; 512; 128]) [0; c; 0; f] = get frame0_input [0; c; 0; f])
    by (intros c f; reflexivity).
  split; [reflexivity|]. split; [reflexivity|]. split; [lia|]. split; [exact Hx|].
  exact (X_extractor_frame_local st_one [] (zeros [1; 2; 512; 128]) frame0_input 1 0 0
           eq_refl eq_refl ltac:(lia) Hx).
Defined.

Lemma X_padding_mask_rank_witness :
  length (shape (zeros [2; 3])) < 3 /\
  padding_mask_audio (zeros [2; 3]) = None /\
  forall (blk : AEBlock1) (rng : Rng) (n : nat), AEBlock1_forward blk (zeros [2; 3]) rng n = None.
Proof.
  assert (Hr : length (shape (zeros [2; 3])) < 3) by (cbn; lia).
  split; [exact Hr|]. exact (X_padding_mask_rank (zeros [2; 3]) Hr).
Defined.

Lemma X_AEBlock1_no_layers_witness :
  3 <= length (shape (zeros [1; 5; 4])) /\
  AEBlock1_forward (AEBlock1_init st_one [] 4 2 8 0) (zeros [1; 5; 4]) (fun _ _ => true) 0
  = Some (zeros [1; 5; 4], 0).
Proof.
  assert (Hr : 3 <= length (shape (zeros [1; 5; 4]))) by (cbn; lia).
  split; [exact Hr|]. exact (X_AEBlock1_no_layers st_one [] 4 2 8 (zeros [1; 5; 4]) (fun _ _ => true) 0 Hr).
Defined.


Lemma X_attention_weights_witness :
  shape (zeros [1; 1; 2; 3]) = [1; 1; 2; 3] /\ shape (zeros [1; 1; 4; 3]) = [1; 1; 4; 3] /\
  shape (zeros [1; 1; 4; 2]) = [1; 1; 4; 2] /\ shape mask_first_key = [1; 1; 4] /\
  exists att score,
    Self_Attention (zeros [1; 1; 2; 3]) (zeros [1; 1; 4; 3]) (zeros [1; 1; 4; 2]) (Some mask_first_key)
      (fun _ _ => true) 0 = Some ((att, score), 1) /\
    (forall b hh i j, b < 1 -> j < 4 ->
       (0 <= get score [b; hh; i; j])%R /\
       ((fun _ _ => true) 0 [b; hh; i; j] = false -> get score [b; hh; i; j] = 0%R)) /\
    (forall b hh i, b < 1 -> (rsum 4 (fun j => get score [b; hh; i; j]) <= 10 / 9)%R) /\
    (forall b hh i, b < 1 -> 0 < 4 -> (forall j, j < 4 -> (fun _ _ => true) 0 [b; hh; i; j] = true) ->
       rsum 4 (fun j => get score [b; hh; i; j]) = (10 / 9)%R).
Proof.
  split; [reflexivity|]. split; [reflexivity|]. split; [reflexivity|]. split; [reflexivity|].
  exact (X_attention_weights (zeros [1; 1; 2; 3]) (zeros [1; 1; 4; 3]) (zeros [1; 1; 4; 2])
           (Some mask_first_key) (fun _ _ => true) 0 1 1 2 4 3 2 eq_refl eq_refl eq_refl eq_refl).
Defined.


Lemma X_fully_masked_uniform_witness :
  shape (zeros [1; 1; 2; 3]) = [1; 1; 2; 3] /\ shape (zeros [1; 1; 3; 3]) = [1; 1; 3; 3] /\
  shape (zeros [1; 1; 3; 2]) = [1; 1; 3; 2] /\ shape mask_none_kept = [1; 1; 3] /\ 0 < 1 /\
  (forall j, j < 3 -> get mask_none_kept [0; 0; j] = false) /\
  exists att score,
    Self_Attention (zeros [1; 1; 2; 3]) (zeros [1; 1; 3; 3]) (zeros [1; 1; 3; 2]) (Some mask_none_kept)
      (fun _ _ => true) 0 = Some ((att, score), 1) /\
    (forall hh i j, j < 3 ->
       get score [0; hh; i; j] =
       if (fun _ _ => true) 0 [0; hh; i; j] then (/ INR 3 / (1 - 1 / 10))%R else 0%R) /\
    (forall hh i k, (forall j, j < 3 -> (fun _ _ => true) 0 [0; hh; i; j] = true) ->
       get att [0; hh; i; k] =
       Rmult (10 / 9) (Rdiv (rsum 3 (fun j => get (zeros [1; 1; 3; 2]) [0; hh; j; k])) (INR 3))).
Proof.
  assert (Hm : forall j, j < 3 -> get mask_none_kept [0; 0; j] = false) by (intros j _; reflexivity).
  split; [reflexivity|]. split; [reflexivity|]. split; [reflexivity|]. split; [reflexivity|].
  split; [lia|]. split; [exact Hm|].
  exact (X_fully_masked_uniform (zeros [1; 1; 2; 3]) (zeros [1; 1; 3; 3]) (zeros [1; 1; 3; 2])
           mask_none_kept (fun _ _ => true) 0 1 1 2 3 3 2 0 eq_refl eq_refl eq_refl eq_refl
           ltac:(lia) Hm).
Defined.

Lemma X_hidden_dim_fixed_witness :
  64 <> 768 /\ shape (zeros [1; 2; 512; 128]) = [1; 2; 512; 128] /\
  AudioRegressor_forward (model_in_mode true (AudioRegressor_init st_one 64 4 16 1))
    (zeros [1; 2; 512; 128]) (fun _ _ => true) 0 = None.
Proof.
  assert (Hh : 64 <> 768) by lia.
  split; [exact Hh|]. split; [reflexivity|].
  exact (X_hidden_dim_fixed st_one 64 4 16 1 true (zeros [1; 2; 512; 128]) (fun _ _ => true) 0 1
           Hh eq_refl).
Defined.

Lemma X_accepted_shapes_witness :
  8 * (768 / 8) = 768 /\ shape (zeros [1; 2; 1024; 64]) = [1; 2; 1024; 64] /\
  let m := model_in_mode true (AudioRegressor_init st_one 768 8 16 1) in
  (1 <= 1 -> 1 <= 1024 -> 4 <= 64 -> 1024 * ext_width 64 = 512 * 32 ->
     exists pred enc n', AudioRegressor_forward m (zeros [1; 2; 1024; 64]) (fun _ _ => true) 0
                         = Some ((pred, enc), n') /\
       shape pred = [1; 1] /\ shape enc = [1; 512; 768]) /\
  (1 = 0 \/ 1024 = 0 \/ 64 < 4 \/ 1024 * ext_width 64 <> 512 * 32 ->
     AudioRegressor_forward m (zeros [1; 2; 1024; 64]) (fun _ _ => true) 0 = None).
Proof.
  assert (Hd : 8 * (768 / 8) = 768) by reflexivity.
  split; [exact Hd|]. split; [reflexivity|].
  exact (X_accepted_shapes st_one 8 16 1 true (zeros [1; 2; 1024; 64]) (fun _ _ => true) 0 1 1024 64
           Hd eq_refl).
Defined.

Lemma X_encoder_rows_centered_witness :
  let blk := AEBlock1_init st_one [] 2 1 2 1 in
  let a := AELayer1_init st_one [Nm "AE1"; Ix 0] 2 1 2 in
  AE1 blk = [] ++ [a] /\
  (forall k, k < normalized_dim (layerNorm2 a) -> ln_weight (layerNorm2 a) k <> 0%R) /\
  exists y n', AEBlock1_forward blk (zeros [1; 3; 2]) (fun _ _ => true) 0 = Some (y, n') /\
  exists pre : list nat, shape y = pre ++ [normalized_dim (layerNorm2 a)] /\
    forall row, length row = length pre ->
      rsum (normalized_dim (layerNorm2 a))
        (fun k => ((get y (row ++ [k]) - ln_bias (layerNorm2 a) k) / ln_weight (layerNorm2 a) k)%R)
      = 0%R.
Proof.
  intros blk a.
  assert (Hl : AE1 blk = [] ++ [a]) by reflexivity.
  assert (Hw : forall k, k < normalized_dim (layerNorm2 a) -> ln_weight (layerNorm2 a) k <> 0%R)
    by (intros k _; cbn; exact R1_neq_R0).
  destruct (AEBlock1_ok blk 2 1 (zeros [1; 3; 2]) (fun _ _ => true) 0 1 3
              (AEBlock1_init_layers st_one [] 2 1 2 1) ltac:(reflexivity) ltac:(lia) ltac:(lia)
              eq_refl) as (msk & y & n' & _ & _ & _ & Ey & _).
  split; [exact Hl|]. split; [exact Hw|]. exists y, n'. split; [exact Ey|].
  exact (X_encoder_rows_centered blk [] a (zeros [1; 3; 2]) (fun _ _ => true) 0 y n' Hl Hw Ey).
Defined.
